(** * GM Studio: the session controller and its two API clients

    A shallow embedding of [src/types.ts] (the [App] component: session state,
    the PGN effect and the event handlers), [src/services/lichessService.ts]
    and [src/services/geminiService.ts].

    - JavaScript strings are sequences of UTF-16 code units ([jsstring]).
    - [JSON.parse], [String.prototype.trim] and [split] are the platform's;
      they are modelled after ECMA-262 / ECMA-404.
    - The chess rules library ([chess.js]) is outside the repository: the
      handlers are written against the interface [ChessEngine].
    - Network answers are inputs of the handlers; every request a handler
      issues is logged in its result. *)

From Stdlib Require Import List String Ascii NArith ZArith Bool Lia.
From Stdlib Require QArith_base.
Import ListNotations.

Set Implicit Arguments.
Set Warnings "-register-all".

(* ================================================================== *)
(** * JavaScript strings *)
(* ================================================================== *)

Module JsString.

(** A string value is a finite sequence of 16-bit code units. *)
Definition jsstring := list N.

(** A literal of the source, written with ASCII characters. *)
Definition js (s : string) : jsstring :=
  map N_of_ascii (list_ascii_of_string s).

(** Test literals are written with an apostrophe where the text has a
    quotation mark (code unit 34). *)
Definition quoted (s : string) : jsstring :=
  map (fun c => if N.eqb c 39 then 34%N else c) (js s).

Definition eqb (a b : jsstring) : bool :=
  if list_eq_dec N.eq_dec a b then true else false.

(** [!s] on a string: only the empty string is falsy. *)
Definition falsy (s : jsstring) : bool :=
  match s with [] => true | _ :: _ => false end.

(** [a || b] on strings. *)
Definition or_else (a b : jsstring) : jsstring :=
  if falsy a then b else a.

(** WhiteSpace and LineTerminator code points (ECMA-262, 12.2 and 12.3):
    what [trim] removes. *)
Definition is_white_space (c : N) : bool :=
  match c with
  | 9 | 10 | 11 | 12 | 13 | 32 | 160 | 5760
  | 8192 | 8193 | 8194 | 8195 | 8196 | 8197 | 8198 | 8199 | 8200 | 8201 | 8202
  | 8232 | 8233 | 8239 | 8287 | 12288 | 65279 => true
  | _ => false
  end%N.

Fixpoint trimStart (s : jsstring) : jsstring :=
  match s with
  | c :: r => if is_white_space c then trimStart r else s
  | [] => []
  end.

Definition trimEnd (s : jsstring) : jsstring := rev (trimStart (rev s)).

Definition trim (s : jsstring) : jsstring := trimEnd (trimStart s).

(** [s.split('\n')]: the pieces between line feeds; never an empty array. *)
Fixpoint split_lf (s : jsstring) : list jsstring :=
  match s with
  | [] => [[]]
  | c :: r =>
      if N.eqb c 10 then [] :: split_lf r
      else match split_lf r with
           | l :: ls => (c :: l) :: ls
           | [] => [[c]]
           end
  end.

(** [parts.join('\n')]. *)
Fixpoint join_lf (parts : list jsstring) : jsstring :=
  match parts with
  | [] => []
  | [p] => p
  | p :: ps => p ++ 10%N :: join_lf ps
  end.

Definition whitespace_only (s : jsstring) : Prop :=
  Forall (fun c => is_white_space c = true) s.

End JsString.
Import JsString.

(* ================================================================== *)
(** * JSON.parse *)
(* ================================================================== *)

Module Json.

(** The values [JSON.parse] produces.  A number keeps its literal (the
    conversion to a double is not needed here); an object keeps its members
    in source order, and reading a property takes the last duplicate. *)
Inductive value :=
| JNull
| JBool (b : bool)
| JNumber (literal : jsstring)
| JString (s : jsstring)
| JArray (items : list value)
| JObject (members : list (jsstring * value)).

Fixpoint get_member (k : jsstring) (ms : list (jsstring * value)) : option value :=
  match ms with
  | [] => None
  | (k', v) :: r =>
      match get_member k r with
      | Some w => Some w
      | None => if JsString.eqb k k' then Some v else None
      end
  end.

(** [v.k] for an object [v]; [None] is [undefined]. *)
Definition get (k : string) (v : value) : option value :=
  match v with
  | JObject ms => get_member (js k) ms
  | _ => None
  end.

(** ** Tokens *)

Inductive token :=
| TLBrace | TRBrace | TLBracket | TRBracket | TColon | TComma
| TString (s : jsstring)
| TNumber (literal : jsstring)
| TTrue | TFalse | TNull.

Definition is_digit (c : N) : bool := ((48 <=? c) && (c <=? 57))%N.

Definition hex_digit (c : N) : option N :=
  if is_digit c then Some (c - 48)%N
  else if ((65 <=? c) && (c <=? 70))%N then Some (c - 55)%N
  else if ((97 <=? c) && (c <=? 102))%N then Some (c - 87)%N
  else None.

Fixpoint skip_digits (s : jsstring) : jsstring :=
  match s with
  | c :: r => if is_digit c then skip_digits r else s
  | [] => []
  end.

(** At least one digit, then the rest. *)
Definition digits1 (s : jsstring) : option jsstring :=
  match s with
  | c :: r => if is_digit c then Some (skip_digits r) else None
  | [] => None
  end.

(** number = [-] int [frac] [exp]   (ECMA-404, section 8). *)
Definition number_int (s : jsstring) : option jsstring :=
  match s with
  | 48%N :: r => Some r
  | c :: r => if is_digit c then Some (skip_digits r) else None
  | [] => None
  end.

Definition number_frac (s : jsstring) : option jsstring :=
  match s with
  | 46%N :: r => digits1 r
  | _ => Some s
  end.

Definition number_exp (s : jsstring) : option jsstring :=
  match s with
  | 69%N :: r | 101%N :: r =>
      match r with
      | 43%N :: r' | 45%N :: r' => digits1 r'
      | _ => digits1 r
      end
  | _ => Some s
  end.

Definition is_number (s : jsstring) : bool :=
  let body := match s with 45%N :: r => r | _ => s end in
  match number_int body with
  | Some r1 =>
      match number_frac r1 with
      | Some r2 =>
          match number_exp r2 with
          | Some [] => true
          | _ => false
          end
      | None => false
      end
  | None => false
  end.

(** Characters that can only occur inside a number or a literal name. *)
Definition is_word_char (c : N) : bool :=
  (is_digit c
   || ((65 <=? c) && (c <=? 90)) || ((97 <=? c) && (c <=? 122))
   || (c =? 43) || (c =? 45) || (c =? 46))%N.

Definition word_token (w : jsstring) : option token :=
  if JsString.eqb w (js "true") then Some TTrue
  else if JsString.eqb w (js "false") then Some TFalse
  else if JsString.eqb w (js "null") then Some TNull
  else if is_number w then Some (TNumber w)
  else None.

(** JSON white space: tab, line feed, carriage return, space. *)
Definition is_json_ws (c : N) : bool :=
  match c with 9 | 10 | 13 | 32 => true | _ => false end%N.

Inductive lexmode :=
| LIdle
| LWord (rev_acc : jsstring)
| LStr (rev_acc : jsstring)
| LEsc (rev_acc : jsstring)
| LHex (rev_acc : jsstring) (seen : list N).

Definition punct (c : N) : option token :=
  match c with
  | 123 => Some TLBrace | 125 => Some TRBrace
  | 91 => Some TLBracket | 93 => Some TRBracket
  | 58 => Some TColon | 44 => Some TComma
  | _ => None
  end%N.

Definition simple_escape (c : N) : option N :=
  match c with
  | 34 => Some 34 | 92 => Some 92 | 47 => Some 47
  | 98 => Some 8 | 102 => Some 12 | 110 => Some 10
  | 114 => Some 13 | 116 => Some 9
  | _ => None
  end%N.

(** The lexer: one pass over the code units; [None] is a syntax error. *)
Fixpoint lex (m : lexmode) (s : jsstring) : option (list token) :=
  match s with
  | [] =>
      match m with
      | LIdle => Some []
      | LWord w =>
          match word_token (rev w) with
          | Some t => Some [t]
          | None => None
          end
      | _ => None
      end
  | c :: r =>
      match m with
      | LIdle =>
          if is_json_ws c then lex LIdle r
          else if N.eqb c 34 then lex (LStr []) r
          else if is_word_char c then lex (LWord [c]) r
          else match punct c with
               | Some t => option_map (cons t) (lex LIdle r)
               | None => None
               end
      | LWord w =>
          if is_word_char c then lex (LWord (c :: w)) r
          else
            match word_token (rev w) with
            | None => None
            | Some t =>
                if is_json_ws c then option_map (cons t) (lex LIdle r)
                else match punct c with
                     | Some p => option_map (fun ts => t :: p :: ts) (lex LIdle r)
                     | None => None
                     end
            end
      | LStr a =>
          if N.eqb c 34 then option_map (cons (TString (rev a))) (lex LIdle r)
          else if N.eqb c 92 then lex (LEsc a) r
          else if N.ltb c 32 then None
          else lex (LStr (c :: a)) r
      | LEsc a =>
          if N.eqb c 117 then lex (LHex a []) r
          else match simple_escape c with
               | Some d => lex (LStr (d :: a)) r
               | None => None
               end
      | LHex a seen =>
          match hex_digit c with
          | None => None
          | Some d =>
              match seen with
              | [d1; d2; d3] =>
                  lex (LStr ((((d1 * 16 + d2) * 16 + d3) * 16 + d)%N :: a)) r
              | _ => lex (LHex a (seen ++ [d])) r
              end
          end
      end
  end.

(** ** The parser: a stack machine over the tokens *)

Inductive frame :=
| FArray (rev_items : list value)
| FObject (rev_members : list (jsstring * value)) (key : jsstring).

Inductive expect :=
| EValue                    (* a value must start here *)
| EValueOrClose             (* just after an opening bracket *)
| EKeyOrClose (rev_members : list (jsstring * value))  (* just after an opening brace *)
| EKey (rev_members : list (jsstring * value))         (* after a comma in an object *)
| EColon (rev_members : list (jsstring * value)) (key : jsstring)
| EAfter                    (* after a value inside the top frame *)
| EDone (v : value).        (* the whole text was one value *)

(** A completed value goes into the innermost open container. *)
Definition reduce (v : value) (st : list frame) : expect * list frame :=
  match st with
  | [] => (EDone v, [])
  | FArray items :: st' => (EAfter, FArray (v :: items) :: st')
  | FObject ms k :: st' => (EAfter, FObject ((k, v) :: ms) (js "") :: st')
  end.

Definition scalar (t : token) : option value :=
  match t with
  | TString s => Some (JString s)
  | TNumber n => Some (JNumber n)
  | TTrue => Some (JBool true)
  | TFalse => Some (JBool false)
  | TNull => Some JNull
  | _ => None
  end.

Definition start_value (t : token) (st : list frame) : option (expect * list frame) :=
  match t with
  | TLBracket => Some (EValueOrClose, FArray [] :: st)
  | TLBrace => Some (EKeyOrClose [], st)
  | _ => option_map (fun v => reduce v st) (scalar t)
  end.

Definition step (e : expect) (st : list frame) (t : token) : option (expect * list frame) :=
  match e with
  | EValue => start_value t st
  | EValueOrClose =>
      match t, st with
      | TRBracket, FArray items :: st' => Some (reduce (JArray (rev items)) st')
      | _, _ => start_value t st
      end
  | EKeyOrClose ms =>
      match t with
      | TRBrace => Some (reduce (JObject (rev ms)) st)
      | TString k => Some (EColon ms k, st)
      | _ => None
      end
  | EKey ms =>
      match t with
      | TString k => Some (EColon ms k, st)
      | _ => None
      end
  | EColon ms k =>
      match t with
      | TColon => Some (EValue, FObject ms k :: st)
      | _ => None
      end
  | EAfter =>
      match t, st with
      | TComma, FArray _ :: _ => Some (EValue, st)
      | TRBracket, FArray items :: st' => Some (reduce (JArray (rev items)) st')
      | TComma, FObject ms _ :: st' => Some (EKey ms, st')
      | TRBrace, FObject ms _ :: st' => Some (reduce (JObject (rev ms)) st')
      | _, _ => None
      end
  | EDone _ => None
  end.

Fixpoint run (e : expect) (st : list frame) (ts : list token) : option value :=
  match ts with
  | [] => match e with EDone v => Some v | _ => None end
  | t :: r =>
      match step e st t with
      | Some (e', st') => run e' st' r
      | None => None
      end
  end.

(** [JSON.parse(text)]: [None] when it throws a [SyntaxError]. *)
Definition parse (text : jsstring) : option value :=
  match lex LIdle text with
  | Some ts => run EValue [] ts
  | None => None
  end.

End Json.

(* ================================================================== *)
(** * Exceptions and completions *)
(* ================================================================== *)

(** A thrown value: every one met here is an error object with a message. *)
Record JsError := mkJsError { name : jsstring; message : jsstring }.

(** [new Error(m)]. *)
Definition Error (m : string) : JsError :=
  {| name := js "Error"; message := js m |}.

(** How a call ends: it returns, or it throws (an async function rejects). *)
Inductive Completion (A : Type) :=
| Normal (a : A)
| Throw (e : JsError).
Arguments Normal {A} a.
Arguments Throw {A} e.

(* ================================================================== *)
(** * services/lichessService.ts *)
(* ================================================================== *)

(** What [await fetch(...)] followed by [response.text()] gives. *)
Inductive FetchOutcome :=
| FetchFails (e : JsError)
| FetchResponse (ok : bool) (body : jsstring).

(** The message of the [SyntaxError] of [JSON.parse] is chosen by the host. *)
Class JsHost := { syntax_error_message : jsstring -> jsstring }.

Section LichessService.

Context {host : JsHost}.

Definition JSON_parse (text : jsstring) : Completion Json.value :=
  match Json.parse text with
  | Some v => Normal v
  | None => Throw {| name := js "SyntaxError"; message := syntax_error_message text |}
  end.

(** [lines.map(line => JSON.parse(line))]: the first throw ends the map. *)
Fixpoint map_JSON_parse (lines : list jsstring) : Completion (list Json.value) :=
  match lines with
  | [] => Normal []
  | line :: rest =>
      match JSON_parse line with
      | Throw e => Throw e
      | Normal v =>
          match map_JSON_parse rest with
          | Throw e => Throw e
          | Normal vs => Normal (v :: vs)
          end
      end
  end.

Definition recent_games_url (username : jsstring) : jsstring :=
  js "https://lichess.org/api/games/user/" ++ username
     ++ js "?max=10&moves=false&pgnInJson=false".

(** [fetchRecentLichessGames]; the [catch] logs and rethrows. *)
Definition fetchRecentLichessGames (response : FetchOutcome)
  : Completion (list Json.value) :=
  match response with
  | FetchFails e => Throw e
  | FetchResponse ok body =>
      if negb ok then Throw (Error "Lichess user not found or private.")
      else
        let text := body in
        let lines := split_lf (trim text) in
        map_JSON_parse lines
  end.

Definition game_export_url (gameId : jsstring) : jsstring :=
  js "https://lichess.org/game/export/" ++ gameId
     ++ js "?moves=true&pgnInJson=false".

(** [fetchLichessGamePgn]. *)
Definition fetchLichessGamePgn (response : FetchOutcome) : Completion jsstring :=
  match response with
  | FetchFails e => Throw e
  | FetchResponse ok body =>
      if negb ok then Throw (Error "Could not fetch game PGN.")
      else Normal body
  end.

End LichessService.

(* ================================================================== *)
(** * services/geminiService.ts *)
(* ================================================================== *)

(** The [responseSchema] literal of [analyzeGame]. *)
Inductive Schema :=
| SNumber
| SString
| SArray (items : Schema)
| SObject (properties : list (string * Schema)) (required : list string).

Definition phaseSchema : Schema :=
  SObject [("score", SNumber); ("feedback", SString); ("errors", SArray SString)]%string
          ["score"; "feedback"; "errors"]%string.

Definition responseSchema : Schema :=
  SObject [("opening", phaseSchema); ("middlegame", phaseSchema);
           ("tactics", phaseSchema); ("endgame", phaseSchema);
           ("overallAdvice", SString); ("referencedBooks", SArray SString)]%string
          ["opening"; "middlegame"; "tactics"; "endgame";
           "overallAdvice"; "referencedBooks"]%string.

(** A value has every field the schema requires, each of the stated type. *)
Fixpoint conforms (sch : Schema) (v : Json.value) {struct sch} : bool :=
  match sch, v with
  | SNumber, Json.JNumber _ => true
  | SString, Json.JString _ => true
  | SArray items, Json.JArray vs => forallb (conforms items) vs
  | SObject properties required, Json.JObject _ =>
      forallb (fun k => match Json.get k v with Some _ => true | None => false end)
              required
      && forallb (fun p => match Json.get (fst p) v with
                           | Some w => conforms (snd p) w
                           | None => true
                           end) properties
  | _, _ => false
  end.

(** What [await ai.models.generateContent(...)] gives; [response.text] may be
    [undefined]. *)
Inductive AiOutcome :=
| AiFails (e : JsError)
| AiResponse (text : option jsstring).

(** [ToString] of [response.text], as [JSON.parse] applies it. *)
Definition text_ToString (text : option jsstring) : jsstring :=
  match text with
  | Some t => t
  | None => js "undefined"
  end.

Definition analyze_contents (pgn : jsstring) : jsstring :=
  js "Please analyze this chess game: " ++ pgn.

Definition InvalidAnalysisFormat : JsError :=
  Error "Invalid analysis format received from AI.".

(** [analyzeGame]: the request is outside the [try], the parse inside. *)
Definition analyzeGame (response : AiOutcome) : Completion Json.value :=
  match response with
  | AiFails e => Throw e
  | AiResponse text =>
      match Json.parse (text_ToString text) with
      | Some v => Normal v
      | None => Throw InvalidAnalysisFormat
      end
  end.

(* ================================================================== *)
(** * The chess rules library, as the application uses it *)
(* ================================================================== *)

Module Chess.

(** The argument of [game.move(...)]: a SAN string, a [{from, to, promotion}]
    object, or [undefined] (an array read out of range). *)
Inductive MoveArg :=
| San (san : jsstring)
| FromTo (from to promotion : jsstring)
| Undefined.

(** [move] makes the move, or returns [null], or throws, depending on the
    version of the library; the callers tell the three apart. *)
Inductive MoveResult (G : Type) :=
| Moved (g : G)
| Null
| Throws.
Arguments Moved {G} g.
Arguments Null {G}.
Arguments Throws {G}.

(** A [Chess] object is only ever filled right after its creation and is not
    touched once it is stored in the session, so its methods are functions
    from the object to the object after the call.  [None] is a throw. *)
Class Engine := {
  t : Type;
  new : t;                                   (* new Chess() *)
  of_fen : jsstring -> option t;             (* new Chess(fen) *)
  loadPgn : t -> jsstring -> option t;
  history : t -> list jsstring;
  move : t -> MoveArg -> MoveResult t;
  fen : t -> jsstring;
  pgn : t -> jsstring
}.

End Chess.

(* ================================================================== *)
(** * types.ts: the data of the session *)
(* ================================================================== *)

Inductive Role := user | assistant.

Record ChatMessage := mkChatMessage { role : Role; content : jsstring }.

Inductive InputMode := manual | pgn_mode | lichess.

Inductive Tab := analysis_tab | chat_tab.

(** A request that leaves the application. *)
Inductive Request :=
| GetRecentGames (url : jsstring)
| GetGamePgn (url : jsstring)
| GenerateContent (contents : jsstring)
| ChatWithAssistant (query pgn currentFen : jsstring)
                    (previousMessages : list ChatMessage)
                    (analysisContext : Json.value).

Notation "s |> f" := (f s) (at level 45, left associativity, only parsing).

Section App.

Context {host : JsHost} {engine : Chess.Engine}.

(** The sixteen [useState] cells of [App].  [analysis] and [error] hold
    [null] as [Json.JNull] and [None].  [FullAnalysis] and
    [LichessGameSummary] are types of the compiler only: the cells hold the
    values [JSON.parse] returned, whatever their shape. *)
Record AppState := mkAppState {
  game : Chess.t;
  pgn : jsstring;
  username : jsstring;
  inputMode : InputMode;
  recentGames : list Json.value;
  isSearchingLichess : bool;
  showGameSelector : bool;
  isAnalyzing : bool;
  analysis : Json.value;
  moveHistory : list jsstring;
  currentMoveIndex : Z;
  error : option jsstring;
  activeTab : Tab;
  chatMessages : list ChatMessage;
  userQuery : jsstring;
  isThinking : bool
}.

(** The arguments of the [useState] calls. *)
Definition initial_state : AppState :=
  {| game := Chess.new; pgn := js ""; username := js ""; inputMode := manual;
     recentGames := []; isSearchingLichess := false; showGameSelector := false;
     isAnalyzing := false; analysis := Json.JNull; moveHistory := [];
     currentMoveIndex := -1; error := None; activeTab := analysis_tab;
     chatMessages := []; userQuery := js ""; isThinking := false |}.

(** ** The state setters *)

Definition setGame (x : Chess.t) (s : AppState) : AppState :=
  mkAppState x (pgn s) (username s) (inputMode s) (recentGames s)
    (isSearchingLichess s) (showGameSelector s) (isAnalyzing s) (analysis s)
    (moveHistory s) (currentMoveIndex s) (error s) (activeTab s)
    (chatMessages s) (userQuery s) (isThinking s).

Definition setPgn (x : jsstring) (s : AppState) : AppState :=
  mkAppState (game s) x (username s) (inputMode s) (recentGames s)
    (isSearchingLichess s) (showGameSelector s) (isAnalyzing s) (analysis s)
    (moveHistory s) (currentMoveIndex s) (error s) (activeTab s)
    (chatMessages s) (userQuery s) (isThinking s).

Definition setUsername (x : jsstring) (s : AppState) : AppState :=
  mkAppState (game s) (pgn s) x (inputMode s) (recentGames s)
    (isSearchingLichess s) (showGameSelector s) (isAnalyzing s) (analysis s)
    (moveHistory s) (currentMoveIndex s) (error s) (activeTab s)
    (chatMessages s) (userQuery s) (isThinking s).

Definition setInputMode (x : InputMode) (s : AppState) : AppState :=
  mkAppState (game s) (pgn s) (username s) x (recentGames s)
    (isSearchingLichess s) (showGameSelector s) (isAnalyzing s) (analysis s)
    (moveHistory s) (currentMoveIndex s) (error s) (activeTab s)
    (chatMessages s) (userQuery s) (isThinking s).

Definition setRecentGames (x : list Json.value) (s : AppState) : AppState :=
  mkAppState (game s) (pgn s) (username s) (inputMode s) x
    (isSearchingLichess s) (showGameSelector s) (isAnalyzing s) (analysis s)
    (moveHistory s) (currentMoveIndex s) (error s) (activeTab s)
    (chatMessages s) (userQuery s) (isThinking s).

Definition setIsSearchingLichess (x : bool) (s : AppState) : AppState :=
  mkAppState (game s) (pgn s) (username s) (inputMode s) (recentGames s)
    x (showGameSelector s) (isAnalyzing s) (analysis s)
    (moveHistory s) (currentMoveIndex s) (error s) (activeTab s)
    (chatMessages s) (userQuery s) (isThinking s).

Definition setShowGameSelector (x : bool) (s : AppState) : AppState :=
  mkAppState (game s) (pgn s) (username s) (inputMode s) (recentGames s)
    (isSearchingLichess s) x (isAnalyzing s) (analysis s)
    (moveHistory s) (currentMoveIndex s) (error s) (activeTab s)
    (chatMessages s) (userQuery s) (isThinking s).

Definition setIsAnalyzing (x : bool) (s : AppState) : AppState :=
  mkAppState (game s) (pgn s) (username s) (inputMode s) (recentGames s)
    (isSearchingLichess s) (showGameSelector s) x (analysis s)
    (moveHistory s) (currentMoveIndex s) (error s) (activeTab s)
    (chatMessages s) (userQuery s) (isThinking s).

Definition setAnalysis (x : Json.value) (s : AppState) : AppState :=
  mkAppState (game s) (pgn s) (username s) (inputMode s) (recentGames s)
    (isSearchingLichess s) (showGameSelector s) (isAnalyzing s) x
    (moveHistory s) (currentMoveIndex s) (error s) (activeTab s)
    (chatMessages s) (userQuery s) (isThinking s).

Definition setMoveHistory (x : list jsstring) (s : AppState) : AppState :=
  mkAppState (game s) (pgn s) (username s) (inputMode s) (recentGames s)
    (isSearchingLichess s) (showGameSelector s) (isAnalyzing s) (analysis s)
    x (currentMoveIndex s) (error s) (activeTab s)
    (chatMessages s) (userQuery s) (isThinking s).

Definition setCurrentMoveIndex (x : Z) (s : AppState) : AppState :=
  mkAppState (game s) (pgn s) (username s) (inputMode s) (recentGames s)
    (isSearchingLichess s) (showGameSelector s) (isAnalyzing s) (analysis s)
    (moveHistory s) x (error s) (activeTab s)
    (chatMessages s) (userQuery s) (isThinking s).

Definition setError (x : option jsstring) (s : AppState) : AppState :=
  mkAppState (game s) (pgn s) (username s) (inputMode s) (recentGames s)
    (isSearchingLichess s) (showGameSelector s) (isAnalyzing s) (analysis s)
    (moveHistory s) (currentMoveIndex s) x (activeTab s)
    (chatMessages s) (userQuery s) (isThinking s).

Definition setActiveTab (x : Tab) (s : AppState) : AppState :=
  mkAppState (game s) (pgn s) (username s) (inputMode s) (recentGames s)
    (isSearchingLichess s) (showGameSelector s) (isAnalyzing s) (analysis s)
    (moveHistory s) (currentMoveIndex s) (error s) x
    (chatMessages s) (userQuery s) (isThinking s).

Definition setChatMessages (x : list ChatMessage) (s : AppState) : AppState :=
  mkAppState (game s) (pgn s) (username s) (inputMode s) (recentGames s)
    (isSearchingLichess s) (showGameSelector s) (isAnalyzing s) (analysis s)
    (moveHistory s) (currentMoveIndex s) (error s) (activeTab s)
    x (userQuery s) (isThinking s).

Definition setUserQuery (x : jsstring) (s : AppState) : AppState :=
  mkAppState (game s) (pgn s) (username s) (inputMode s) (recentGames s)
    (isSearchingLichess s) (showGameSelector s) (isAnalyzing s) (analysis s)
    (moveHistory s) (currentMoveIndex s) (error s) (activeTab s)
    (chatMessages s) x (isThinking s).

Definition setIsThinking (x : bool) (s : AppState) : AppState :=
  mkAppState (game s) (pgn s) (username s) (inputMode s) (recentGames s)
    (isSearchingLichess s) (showGameSelector s) (isAnalyzing s) (analysis s)
    (moveHistory s) (currentMoveIndex s) (error s) (activeTab s)
    (chatMessages s) (userQuery s) x.

(** ** The effect on [pgn] *)

(** The body of [useEffect(..., [pgn])]. *)
Definition pgn_effect (s : AppState) : AppState :=
  let tempGame := Chess.new in
  if falsy (pgn s) then s
  else
    match Chess.loadPgn tempGame (pgn s) with
    | Some tempGame =>
        let history := Chess.history tempGame in
        s |> setMoveHistory history
          |> setCurrentMoveIndex (Z.of_nat (List.length history) - 1)
          |> setGame tempGame
    | None => s |> setError (Some (js "Invalid PGN data."))
    end.

(** After a handler the component renders again, and the effect runs when
    the value of [pgn] differs from the one of the previous render.  Only
    the effect is modelled: the markup of the render is not evaluated, so a
    render that throws on the cells it reads is not told apart from one that
    does not. *)
Definition render (before after : AppState) : AppState :=
  if JsString.eqb (pgn before) (pgn after) then after else pgn_effect after.

(** ** The handlers

    A handler reads the cells of the render it was created in ([s]) and
    queues updates; what it returns is the state after its updates. *)

Definition makeAMove (move : Chess.MoveArg) (s : AppState) : AppState * bool :=
  match Chess.of_fen (Chess.fen (game s)) with
  | None => (s, false)
  | Some gameCopy =>
      match Chess.move gameCopy move with
      | Chess.Moved gameCopy =>
          (s |> setGame gameCopy |> setPgn (Chess.pgn gameCopy) |> setError None,
           true)
      | Chess.Null => (s, false)
      | Chess.Throws => (s, false)
      end
  end.

Definition onDrop (sourceSquare targetSquare : jsstring) (s : AppState)
  : AppState * bool :=
  makeAMove (Chess.FromTo sourceSquare targetSquare (js "q")) s.

(** [file] is the content of the chosen file, if one was chosen. *)
Definition handlePgnUpload (file : option jsstring) (s : AppState) : AppState :=
  match file with
  | Some content => s |> setPgn content |> setInputMode pgn_mode
  | None => s
  end.

Definition handleLichessSearch (response : FetchOutcome) (s : AppState)
  : AppState * list Request :=
  if falsy (username s) then (s, [])
  else
    let s1 := s |> setIsSearchingLichess true |> setError None in
    let s2 :=
      match fetchRecentLichessGames response with
      | Normal games => s1 |> setRecentGames games |> setShowGameSelector true
      | Throw err => s1 |> setError (Some (message err))
      end in
    (s2 |> setIsSearchingLichess false,
     [GetRecentGames (recent_games_url (username s))]).

Definition selectLichessGame (gameId : jsstring) (response : FetchOutcome)
  (s : AppState) : AppState * list Request :=
  let s1 := s |> setIsAnalyzing true |> setShowGameSelector false in
  let s2 :=
    match fetchLichessGamePgn response with
    | Normal pgnData => s1 |> setPgn pgnData |> setInputMode lichess
    | Throw err => s1 |> setError (Some (message err))
    end in
  (s2 |> setIsAnalyzing false, [GetGamePgn (game_export_url gameId)]).

Definition startAnalysis (response : AiOutcome) (s : AppState)
  : AppState * list Request :=
  if falsy (pgn s) && (List.length (moveHistory s) =? 0)%nat then
    (s |> setError (Some (js "Please input some moves or upload a game first.")),
     [])
  else
    let s1 := s |> setIsAnalyzing true |> setAnalysis Json.JNull |> setError None in
    let s2 :=
      match analyzeGame response with
      | Normal result => s1 |> setAnalysis result |> setActiveTab analysis_tab
      | Throw _ => s1 |> setError (Some (js "Analysis failed. Please try again."))
      end in
    (s2 |> setIsAnalyzing false,
     [GenerateContent (analyze_contents (or_else (pgn s) (Chess.pgn (game s))))]).

Definition resetGame (s : AppState) : AppState :=
  s |> setGame Chess.new
    |> setPgn (js "")
    |> setMoveHistory []
    |> setCurrentMoveIndex (-1)
    |> setAnalysis Json.JNull
    |> setChatMessages []
    |> setError None.

(** [for (let i = ...; i <= index; i++) newGame.move(history[i])], with
    [count] iterations left; [None] when a [move] throws. *)
Fixpoint replay_loop (history : list jsstring) (i count : nat) (newGame : Chess.t)
  : option Chess.t :=
  match count with
  | O => Some newGame
  | S count' =>
      let arg := match nth_error history i with
                 | Some san => Chess.San san
                 | None => Chess.Undefined
                 end in
      match Chess.move newGame arg with
      | Chess.Moved g => replay_loop history (S i) count' g
      | Chess.Null => replay_loop history (S i) count' newGame
      | Chess.Throws => None
      end
  end.

(** [None]: the handler threw before any update was queued. *)
Definition navigateToMove (index : Z) (s : AppState) : option AppState :=
  let tempGame := Chess.new in
  if falsy (pgn s) then Some s
  else
    match Chess.loadPgn tempGame (pgn s) with
    | None => None
    | Some tempGame =>
        let history := Chess.history tempGame in
        let newGame := Chess.new in
        match replay_loop history 0 (Z.to_nat (index + 1)) newGame with
        | None => None
        | Some newGame =>
            Some (s |> setGame newGame |> setCurrentMoveIndex index)
        end
    end.

(** The position obtained by applying the given moves, in order, to a
    position: every one of them has to be made. *)
Fixpoint apply_moves (sans : list jsstring) (g : Chess.t) : option Chess.t :=
  match sans with
  | [] => Some g
  | san :: rest =>
      match Chess.move g (Chess.San san) with
      | Chess.Moved g' => apply_moves rest g'
      | _ => None
      end
  end.

(** The position after the moves [0..index] of a move list, from the start. *)
Definition position_after (moves : list jsstring) (index : Z) : option Chess.t :=
  apply_moves (firstn (Z.to_nat (index + 1)) moves) Chess.new.

(** [chatWithAssistant] is taken at its interface: [response] is how the call
    ends.  The last argument of the call is the [analysis] cell, which the
    call site passes through [|| undefined]. *)
Definition handleSendChat (response : Completion jsstring) (s : AppState)
  : AppState * list Request :=
  if falsy (trim (userQuery s)) || isThinking s then (s, [])
  else
    let query := userQuery s in
    let newMessages := chatMessages s ++ [mkChatMessage user query] in
    let s1 := s |> setUserQuery (js "") |> setChatMessages newMessages
                |> setIsThinking true in
    let s2 :=
      match response with
      | Normal reply =>
          s1 |> setChatMessages (newMessages ++ [mkChatMessage assistant reply])
      | Throw _ =>
          s1 |> setError (Some (js "Chat failed. Check your API key or connection."))
      end in
    (s2 |> setIsThinking false,
     [ChatWithAssistant query (or_else (pgn s) (Chess.pgn (game s)))
        (Chess.fen (game s)) (chatMessages s) (analysis s)]).

(** ** The session as a transition system *)

(** What the user can do; the answer of the network comes with the action
    that asks for it, and an action runs to its end before the next one. *)
Inductive Action :=
| SetInputMode (mode : InputMode)
| SetUsername (value : jsstring)
| SetUserQuery (value : jsstring)
| SetActiveTab (tab : Tab)
| CloseGameSelector
| PgnUpload (file : option jsstring)
| LichessSearch (response : FetchOutcome)
| SelectLichessGame (gameId : jsstring) (response : FetchOutcome)
| Drop (sourceSquare targetSquare : jsstring)
| StartAnalysis (response : AiOutcome)
| ResetGame
| PreviousMove
| NextMove
| ClickMove (idx : nat)
| SendChat (response : Completion jsstring).

(** The [disabled] attributes of the navigation buttons, and the move
    buttons that exist. *)
Definition enabled (s : AppState) (a : Action) : bool :=
  match a with
  | PreviousMove => negb (currentMoveIndex s <? 0)%Z
  | NextMove => negb (currentMoveIndex s >=? Z.of_nat (List.length (moveHistory s)) - 1)%Z
  | ClickMove idx => (idx <? List.length (moveHistory s))%nat
  | _ => true
  end.

(** A handler that throws leaves the state as it was. *)
Definition or_unchanged (s : AppState) (r : option AppState) : AppState :=
  match r with Some s' => s' | None => s end.

Definition handle (a : Action) (s : AppState) : AppState * list Request :=
  match a with
  | SetInputMode mode => (s |> setInputMode mode, [])
  | SetUsername value => (s |> setUsername value, [])
  | SetUserQuery value => (s |> setUserQuery value, [])
  | SetActiveTab tab => (s |> setActiveTab tab, [])
  | CloseGameSelector => (s |> setShowGameSelector false, [])
  | PgnUpload file => (handlePgnUpload file s, [])
  | LichessSearch response => handleLichessSearch response s
  | SelectLichessGame gameId response => selectLichessGame gameId response s
  | Drop sourceSquare targetSquare => (fst (onDrop sourceSquare targetSquare s), [])
  | StartAnalysis response => startAnalysis response s
  | ResetGame => (resetGame s, [])
  | PreviousMove => (or_unchanged s (navigateToMove (currentMoveIndex s - 1) s), [])
  | NextMove => (or_unchanged s (navigateToMove (currentMoveIndex s + 1) s), [])
  | ClickMove idx => (or_unchanged s (navigateToMove (Z.of_nat idx) s), [])
  | SendChat response => handleSendChat response s
  end.

(** One user action: the handler, then the render with its effect. *)
Definition dispatch (a : Action) (s : AppState) : AppState :=
  render s (fst (handle a s)).

Definition requests (a : Action) (s : AppState) : list Request :=
  snd (handle a s).

(** A disabled control does not react. *)
Definition click (a : Action) (s : AppState) : AppState :=
  if enabled s a then dispatch a s else s.

Definition run_actions (actions : list Action) (s : AppState) : AppState :=
  fold_left (fun s a => click a s) actions s.

(** The states the user can bring the session to, through enabled controls.
    The effect also runs after the first render, where [pgn] is empty and it
    does nothing. *)
Inductive reachable : AppState -> Prop :=
| reachable_initial : reachable initial_state
| reachable_dispatch s a :
    reachable s -> enabled s a = true -> reachable (dispatch a s).

(** ** Predicates on the session *)

(** The guard of [startAnalysis] lets the request through. *)
Definition analysis_requested (s : AppState) : bool :=
  negb (falsy (pgn s) && (List.length (moveHistory s) =? 0)%nat).

(** The rules library makes the move on a copy of the displayed position. *)
Definition legal_drop (s : AppState) (sourceSquare targetSquare : jsstring) : Prop :=
  exists gameCopy moved,
    Chess.of_fen (Chess.fen (game s)) = Some gameCopy
    /\ Chess.move gameCopy (Chess.FromTo sourceSquare targetSquare (js "q"))
       = Chess.Moved moved.

(** The move index is between -1 and the last index of the move list. *)
Definition index_in_range (s : AppState) : Prop :=
  (-1 <= currentMoveIndex s <= Z.of_nat (List.length (moveHistory s)) - 1)%Z.

End App.

(* ================================================================== *)
(** * A scripted engine for the examples *)
(* ================================================================== *)

(** The examples below run the handlers on the opening 1. e4 e5 2. Nf3.
    [Script.engine] answers as the rules library does along that line and
    rejects everything else; a game is the position a [Chess] object was
    created at ([base], in plies from the initial position) and the number
    of plies played on it since. *)
Module Script.

Record game := mkGame { base : nat; played : nat }.

Definition line : list jsstring := [js "e4"; js "e5"; js "Nf3"].

Definition squares : list (jsstring * jsstring) :=
  [(js "e2", js "e4"); (js "e7", js "e5"); (js "g1", js "f3")].

Definition position (g : game) : nat := base g + played g.

Definition fens : list jsstring :=
  [js "rnbqkbnr/pppppppp/8/8/8/8/PPPPPPPP/RNBQKBNR w KQkq - 0 1";
   js "rnbqkbnr/pppppppp/8/8/4P3/8/PPPP1PPP/RNBQKBNR b KQkq e3 0 1";
   js "rnbqkbnr/pppp1ppp/8/4p3/4P3/8/PPPP1PPP/RNBQKBNR w KQkq e6 0 2";
   js "rnbqkbnr/pppp1ppp/8/4p3/4P3/5N2/PPPP1PPP/RNBQKB1R b KQkq - 1 2"].

Definition fen (g : game) : jsstring := nth (position g) fens (js "").

Definition history (g : game) : list jsstring :=
  firstn (played g) (skipn (base g) line).

(** The move text of the plies [from, from + count); a game that starts with
    Black to move opens with the move number and an ellipsis. *)
Definition movetext (from count : nat) : jsstring :=
  match from, count with
  | _, 0 => js ""
  | 0, 1 => js "1. e4"
  | 0, 2 => js "1. e4 e5"
  | 0, _ => js "1. e4 e5 2. Nf3"
  | 1, 1 => js "1. ... e5"
  | 1, _ => js "1. ... e5 2. Nf3"
  | _, _ => js "2. Nf3"
  end.

(** [[SetUp "1"]] and [[FEN "..."]], each on its own line, then an empty
    line when moves follow: the header of a game set up from a position. *)
Definition header (g : game) : jsstring :=
  match base g with
  | 0 => js ""
  | _ =>
      quoted "[SetUp '1']" ++ [10%N]
      ++ quoted "[FEN '" ++ nth (base g) fens (js "") ++ quoted "']" ++ [10%N]
      ++ match played g with 0 => js "" | _ => [10%N] end
  end.

Definition pgn (g : game) : jsstring := header g ++ movetext (base g) (played g).

Definition games : list game :=
  [mkGame 0 0; mkGame 0 1; mkGame 0 2; mkGame 0 3;
   mkGame 1 0; mkGame 1 1; mkGame 1 2;
   mkGame 2 0; mkGame 2 1;
   mkGame 3 0].

Definition loadPgn (_ : game) (text : jsstring) : option game :=
  find (fun g => JsString.eqb (pgn g) text) games.

Definition of_fen (text : jsstring) : option game :=
  find (fun g => JsString.eqb (fen g) text)
       [mkGame 0 0; mkGame 1 0; mkGame 2 0; mkGame 3 0].

Definition move (g : game) (arg : Chess.MoveArg) : Chess.MoveResult game :=
  let next := Chess.Moved (mkGame (base g) (S (played g))) in
  match arg with
  | Chess.San san =>
      match nth_error line (position g) with
      | Some expected => if JsString.eqb san expected then next else Chess.Throws
      | None => Chess.Throws
      end
  | Chess.FromTo from to _ =>
      match nth_error squares (position g) with
      | Some (f, t) =>
          if JsString.eqb from f && JsString.eqb to t then next else Chess.Throws
      | None => Chess.Throws
      end
  | Chess.Undefined => Chess.Throws
  end.

#[global] Instance engine : Chess.Engine :=
  {| Chess.t := game;
     Chess.new := mkGame 0 0;
     Chess.of_fen := of_fen;
     Chess.loadPgn := loadPgn;
     Chess.history := history;
     Chess.move := move;
     Chess.fen := fen;
     Chess.pgn := pgn |}.

(** A host whose [SyntaxError] messages quote the text. *)
#[global] Instance host : JsHost :=
  {| syntax_error_message := fun text => js "Unexpected token in JSON: " ++ text |}.

End Script.

(* ================================================================== *)
(** * services/geminiService.ts: the message of the chat *)
(* ================================================================== *)

(** [m.role === 'user' ? 'Human' : 'Assistant']. *)
Definition role_label (r : Role) : jsstring :=
  match r with
  | user => js "Human"
  | assistant => js "Assistant"
  end.

(** One line of the transcript: the label, a colon and a space, the content. *)
Definition history_line (m : ChatMessage) : jsstring :=
  role_label (role m) ++ js ": " ++ content m.

(** [previousMessages.map(...).join('\n')]. *)
Definition historyPrompt (previousMessages : list ChatMessage) : jsstring :=
  join_lf (map history_line previousMessages).

(** The [message] of [chat.sendMessage]. *)
Definition finalPrompt (query : jsstring) (previousMessages : list ChatMessage)
  : jsstring :=
  historyPrompt previousMessages ++ [10%N] ++ js "Human: " ++ query.

(** What [await chat.sendMessage(...)] gives; [result.text] may be
    [undefined]. *)
Inductive ChatOutcome :=
| ChatFails (e : JsError)
| ChatResponse (text : option jsstring).

Definition apology : jsstring :=
  js "I apologize, I couldn't formulate a response.".

(** The end of [chatWithAssistant], from [sendMessage] on:
    [return result.text || apology]. *)
Definition sendMessage_reply (result : ChatOutcome) : Completion jsstring :=
  match result with
  | ChatFails e => Throw e
  | ChatResponse text =>
      Normal (match text with
              | Some t => or_else t apology
              | None => apology
              end)
  end.

(* ================================================================== *)
(** * types.ts: [PhaseCard] and the controls of [App] *)
(* ================================================================== *)

(** A value of type [number]: a double is a rational, an infinity, or NaN. *)
Inductive JsNumber :=
| Finite (q : QArith_base.Q)
| PosInfinity
| NegInfinity
| NaN.

(** [score >= k] for an integer constant [k]. *)
Definition number_ge (score : JsNumber) (k : Z) : bool :=
  match score with
  | Finite q => QArith_base.Qle_bool (QArith_base.inject_Z k) q
  | PosInfinity => true
  | NegInfinity => false
  | NaN => false
  end.

Definition getColor (score : JsNumber) : jsstring :=
  if number_ge score 80 then js "text-emerald-400"
  else if number_ge score 60 then js "text-indigo-400"
  else if number_ge score 40 then js "text-amber-400"
  else js "text-red-400".

Definition getBg (score : JsNumber) : jsstring :=
  if number_ge score 80 then js "bg-emerald-500/10 border-emerald-500/30"
  else if number_ge score 60 then js "bg-indigo-500/10 border-indigo-500/30"
  else if number_ge score 40 then js "bg-amber-500/10 border-amber-500/30"
  else js "bg-red-500/10 border-red-500/30".

(** The label of the move button of index [idx]:
    [Math.floor(idx / 2) + 1], then one dot for White and three for Black. *)
Definition move_number (idx : nat) : nat := idx / 2 + 1.

Definition move_dots (idx : nat) : jsstring :=
  if (idx mod 2 =? 0)%nat then js "." else js "...".

Section Controls.

Context {host : JsHost} {engine : Chess.Engine}.



(** The three flags that are up while a request is awaited. *)
Definition idle (s : AppState) : Prop :=
  isAnalyzing s = false /\ isSearchingLichess s = false /\ isThinking s = false.

(** The move list on display is the history of the stored PGN text, when
    that text loads. *)
Definition history_matches_pgn (s : AppState) : Prop :=
  forall loaded,
    pgn s <> js "" ->
    Chess.loadPgn Chess.new (pgn s) = Some loaded ->
    moveHistory s = Chess.history loaded.

(** The index a navigation control passes to [navigateToMove]. *)
Definition navigation_index (s : AppState) (a : Action) : option Z :=
  match a with
  | PreviousMove => Some (currentMoveIndex s - 1)%Z
  | NextMove => Some (currentMoveIndex s + 1)%Z
  | ClickMove idx => Some (Z.of_nat idx)
  | _ => None
  end.

End Controls.

(* ================================================================== *)
(** * Sessions and texts for the examples *)
(* ================================================================== *)

Module Examples.

Definition e2e4 : Action := Drop (js "e2") (js "e4").

Definition full_analysis_text : jsstring :=
  quoted ("{'opening':{'score':82,'feedback':'Principled.','errors':[]},"
       ++ "'middlegame':{'score':64,'feedback':'Passive.','errors':['12...h6']},"
       ++ "'tactics':{'score':55,'feedback':'Missed a fork.','errors':['17.Nd5']},"
       ++ "'endgame':{'score':70,'feedback':'Accurate.','errors':[]},"
       ++ "'overallAdvice':'Activate the rooks.',"
       ++ "'referencedBooks':['My System']}")%string.

Definition no_endgame_text : jsstring :=
  quoted ("{'opening':{'score':82,'feedback':'Principled.','errors':[]},"
       ++ "'middlegame':{'score':64,'feedback':'Passive.','errors':['12...h6']},"
       ++ "'tactics':{'score':55,'feedback':'Missed a fork.','errors':['17.Nd5']},"
       ++ "'overallAdvice':'Activate the rooks.',"
       ++ "'referencedBooks':['My System']}")%string.

(** A session with one move on the board and an analysis on display. *)
Definition analysed : AppState :=
  run_actions [e2e4; StartAnalysis (AiResponse (Some full_analysis_text))]
              initial_state.

(** A session in which the PGN text 1. e4 e5 2. Nf3 was uploaded. *)
Definition uploaded : AppState :=
  run_actions [SetInputMode pgn_mode; PgnUpload (Some (js "1. e4 e5 2. Nf3"))]
              initial_state.

(** The first move made, taken back with the button, and made again. *)
Definition replayed_first_move : list Action := [e2e4; PreviousMove; e2e4].

(** A body of two lines, as the game server ends it, with a line feed. *)
Definition two_games : jsstring :=
  quoted "{'id':'q7ZvsdUF'}" ++ [10%N] ++ quoted "{'id':'X1yTb0Qe'}" ++ [10%N].

(** A body of two lines, the second one cut short. *)
Definition two_games_second_cut : jsstring :=
  quoted "{'id':'q7ZvsdUF'}" ++ [10%N] ++ quoted "{'id':'X1y" ++ [10%N].

End Examples.
Import Examples.

Module MoreExamples.

(** A session in which a text that is no game was uploaded after a game. *)
Definition spoiled : AppState :=
  run_actions [PgnUpload (Some (js "1. e9"))] uploaded.

(** The uploaded game, with the cursor on its first move. *)
Definition at_first_move : AppState := run_actions [ClickMove 0] uploaded.


(** A session with a question typed and a username entered. *)
Definition asking : AppState :=
  run_actions [SetUsername (js "DrNykterstein"); SetUserQuery (js "Why Nf3?")]
              analysed.

End MoreExamples.
Import MoreExamples.

(* ================================================================== *)
(** * Facts about [trim] and [split] *)
(* ================================================================== *)

Section StringFacts.

Lemma trimStart_whitespace_only (s : jsstring) :
  whitespace_only s -> trimStart s = [].
Proof.
  induction 1 as [|c r Hc _ IH]; simpl; [reflexivity|].
  now rewrite Hc.
Qed.

Lemma trimStart_empty_inv (s : jsstring) :
  trimStart s = [] -> whitespace_only s.
Proof.
  induction s as [|c r IH]; simpl; intros H; [constructor|].
  destruct (is_white_space c) eqn:Hc; [|discriminate].
  constructor; [assumption|now apply IH].
Qed.

Lemma trim_whitespace_only (s : jsstring) :
  whitespace_only s -> trim s = [].
Proof.
  intros H. unfold trim, trimEnd.
  now rewrite (trimStart_whitespace_only H).
Qed.

(** [trim] gives the empty string on the whitespace-only strings, and on no
    other. *)
Lemma trim_empty_iff (s : jsstring) :
  trim s = [] <-> whitespace_only s.
Proof.
  split; [|apply trim_whitespace_only].
  unfold trim, trimEnd. intros H.
  apply (f_equal (@rev N)) in H. rewrite rev_involutive in H. simpl in H.
  assert (Hr : whitespace_only (rev (trimStart s)))
    by now apply trimStart_empty_inv.
  assert (Hs : whitespace_only (trimStart s)).
  { unfold whitespace_only in *. rewrite <- (rev_involutive (trimStart s)).
    now apply Forall_rev. }
  clear H Hr. induction s as [|c r IH]; [constructor|].
  simpl in Hs. destruct (is_white_space c) eqn:Hc.
  - constructor; [assumption|now apply IH].
  - inversion Hs; congruence.
Qed.

Lemma falsy_trim_iff (s : jsstring) :
  falsy (trim s) = true <-> whitespace_only s.
Proof.
  rewrite <- trim_empty_iff. destruct (trim s); simpl; split; congruence.
Qed.

Lemma split_lf_not_empty (s : jsstring) : split_lf s <> [].
Proof.
  destruct s as [|c r]; simpl; [discriminate|].
  destruct (N.eqb c 10); [discriminate|].
  destruct (split_lf r); discriminate.
Qed.

(** Joining the pieces with line feeds gives the text back. *)
Lemma join_split_lf (s : jsstring) : join_lf (split_lf s) = s.
Proof.
  induction s as [|c r IH]; simpl; [reflexivity|].
  destruct (N.eqb_spec c 10) as [->|Hc].
  - pose proof (split_lf_not_empty r) as Hne.
    destruct (split_lf r) as [|l ls] eqn:E; [congruence|].
    simpl in *. now rewrite IH.
  - pose proof (split_lf_not_empty r) as Hne.
    destruct (split_lf r) as [|l ls] eqn:E; [congruence|].
    destruct ls; simpl in *; now rewrite <- IH.
Qed.

(** No piece holds a line feed. *)
Lemma split_lf_no_lf (s : jsstring) :
  Forall (fun line => ~ In 10%N line) (split_lf s).
Proof.
  induction s as [|c r IH]; simpl.
  - repeat constructor. intros [].
  - destruct (N.eqb_spec c 10) as [->|Hc].
    + constructor; [intros []|exact IH].
    + destruct (split_lf r) as [|l ls]; [repeat constructor|].
      * simpl. intros [H|[]]. congruence.
      * inversion IH; subst. constructor; [|assumption].
        simpl. intros [H|H]; [congruence|contradiction].
Qed.

Lemma eqb_eq (a b : jsstring) : JsString.eqb a b = true <-> a = b.
Proof.
  unfold JsString.eqb. destruct (list_eq_dec N.eq_dec a b); split; congruence.
Qed.

Lemma eqb_refl (a : jsstring) : JsString.eqb a a = true.
Proof. now apply eqb_eq. Qed.

End StringFacts.

(* ================================================================== *)
(** * [JSON.parse] on some texts *)
(* ================================================================== *)

Example parse_demo :
  Json.parse (quoted " {'a': [1, -2.5e+3, true, null], 'bA': {'c': 'x\ny'}} ")
  = Some (Json.JObject
            [(js "a", Json.JArray [Json.JNumber (js "1"); Json.JNumber (js "-2.5e+3");
                                   Json.JBool true; Json.JNull]);
             (js "bA", Json.JObject [(js "c", Json.JString (js "x" ++ [10%N] ++ js "y"))])]).
Proof. vm_compute. reflexivity. Qed.

(** Texts that are not JSON: the empty text, [undefined], a trailing comma,
    a leading zero, a raw line feed inside a string, two values. *)
Example parse_rejects :
  map Json.parse
      [js ""; js "undefined"; js "[1,]"; js "01";
       quoted "'a" ++ [10%N] ++ quoted "b'"; js "1 2"]
  = [None; None; None; None; None; None].
Proof. vm_compute. reflexivity. Qed.

(** The last of two members with one key is the one that is read. *)
Example parse_duplicate_key :
  option_map (Json.get "a") (Json.parse (quoted "{'a':1,'\u0061':2}"))
  = Some (Some (Json.JNumber (js "2"))).
Proof. vm_compute. reflexivity. Qed.

(* ================================================================== *)
(** * The game-server client *)
(* ================================================================== *)

Section LichessServiceFacts.

Context {host : JsHost}.

Lemma JSON_parse_Normal (text : jsstring) (v : Json.value) :
  JSON_parse text = Normal v <-> Json.parse text = Some v.
Proof.
  unfold JSON_parse. destruct (Json.parse text); split; congruence.
Qed.

Lemma map_JSON_parse_Normal (lines : list jsstring) (games : list Json.value) :
  map_JSON_parse lines = Normal games
  <-> Forall2 (fun line g => Json.parse line = Some g) lines games.
Proof.
  revert games. induction lines as [|line rest IH]; intros games; simpl.
  - split.
    + intros H. injection H as <-. constructor.
    + intros H. inversion H. reflexivity.
  - unfold JSON_parse at 1. destruct (Json.parse line) as [v|] eqn:Hv.
    + destruct (map_JSON_parse rest) as [vs|e] eqn:Hrest.
      * split.
        -- intros H. injection H as <-. constructor; [assumption|now apply IH].
        -- intros H. inversion H as [|? g ? gs Hg Hgs]; subst.
           apply IH in Hgs. congruence.
      * split; [discriminate|].
        intros H. inversion H as [|? g ? gs Hg Hgs]; subst.
        apply IH in Hgs. discriminate.
    + split; [discriminate|].
      intros H. inversion H; congruence.
Qed.

Lemma map_JSON_parse_Throw (lines : list jsstring) :
  (exists line, In line lines /\ Json.parse line = None)
  -> exists bad, In bad lines
       /\ map_JSON_parse lines
          = Throw {| name := js "SyntaxError"; message := syntax_error_message bad |}.
Proof.
  induction lines as [|line rest IH]; intros (l & Hin & Hl); [destruct Hin|].
  simpl. unfold JSON_parse at 1.
  destruct (Json.parse line) as [v|] eqn:Hv.
  - destruct Hin as [->|Hin]; [congruence|].
    destruct IH as (bad & Hbad & ->); [now exists l|].
    exists bad. split; [now right|reflexivity].
  - exists line. split; [now left|reflexivity].
Qed.

(** C5: on a successful response, the call returns exactly when every line of
    the trimmed body parses, and then the i-th game is the parse of the i-th
    line alone; when some line is malformed the call throws the
    [SyntaxError] of a malformed line and returns no list at all. *)
Theorem fetchRecentLichessGames_line_by_line (body : jsstring) :
  let lines := split_lf (trim body) in
  let result := fetchRecentLichessGames (FetchResponse true body) in
  (forall games,
      result = Normal games
      <-> Forall2 (fun line g => Json.parse line = Some g) lines games)
  /\ ((exists line, In line lines /\ Json.parse line = None) ->
      exists bad, In bad lines
        /\ result = Throw {| name := js "SyntaxError";
                             message := syntax_error_message bad |}).
Proof.
  simpl. split.
  - intros games. apply map_JSON_parse_Normal.
  - apply map_JSON_parse_Throw.
Qed.

Lemma map_JSON_parse_length (lines : list jsstring) (games : list Json.value) :
  map_JSON_parse lines = Normal games -> List.length games = List.length lines.
Proof.
  intros H. apply map_JSON_parse_Normal in H.
  symmetry. eapply Forall2_length; eauto.
Qed.

Lemma parse_empty_text : Json.parse (js "") = None.
Proof. reflexivity. Qed.

(** C9: a successful response with an empty or whitespace-only body makes the
    call throw the [SyntaxError] of [JSON.parse] on the empty text, and no
    response at all makes the call return the empty list. *)
Theorem fetchRecentLichessGames_never_empty :
  (forall body,
      whitespace_only body ->
      fetchRecentLichessGames (FetchResponse true body)
      = Throw {| name := js "SyntaxError";
                 message := syntax_error_message (js "") |})
  /\ (forall response, fetchRecentLichessGames response <> Normal []).
Proof.
  split.
  - intros body Hws. simpl. now rewrite (trim_whitespace_only Hws).
  - intros [e|ok body]; simpl; [discriminate|].
    destruct ok; simpl; [|discriminate].
    intros H. apply map_JSON_parse_length in H.
    pose proof (split_lf_not_empty (trim body)) as Hne.
    destruct (split_lf (trim body)); [congruence|discriminate].
Qed.

End LichessServiceFacts.

Lemma fetchRecentLichessGames_line_by_line_witness :
  fetchRecentLichessGames (FetchResponse true two_games)
  = Normal [Json.JObject [(js "id", Json.JString (js "q7ZvsdUF"))];
            Json.JObject [(js "id", Json.JString (js "X1yTb0Qe"))]]
  /\ exists bad,
      In bad (split_lf (trim two_games_second_cut))
      /\ fetchRecentLichessGames (FetchResponse true two_games_second_cut)
         = Throw {| name := js "SyntaxError";
                    message := syntax_error_message bad |}.
Proof.
  split.
  - apply (proj1 (fetchRecentLichessGames_line_by_line two_games)).
    vm_compute. repeat constructor.
  - apply (proj2 (fetchRecentLichessGames_line_by_line two_games_second_cut)).
    exists (quoted "{'id':'X1y"). split.
    + vm_compute. right. left. reflexivity.
    + vm_compute. reflexivity.
Defined.

Lemma fetchRecentLichessGames_never_empty_witness :
  fetchRecentLichessGames (FetchResponse true (js "  " ++ [10%N]))
  = Throw {| name := js "SyntaxError"; message := syntax_error_message (js "") |}.
Proof.
  apply (proj1 fetchRecentLichessGames_never_empty).
  repeat constructor.
Defined.

(* ================================================================== *)
(** * The session controller *)
(* ================================================================== *)

Section SessionFacts.

Context {host : JsHost} {engine : Chess.Engine}.

Implicit Types s : AppState.

Lemma render_same_pgn s s' : pgn s' = pgn s -> render s s' = s'.
Proof.
  intros H. unfold render. rewrite H. now rewrite eqb_refl.
Qed.

Lemma render_pgn_empty s s' : pgn s' = js "" -> render s s' = s'.
Proof.
  intros H. unfold render.
  destruct (JsString.eqb (pgn s) (pgn s')); [reflexivity|].
  unfold pgn_effect. now rewrite H.
Qed.

(** ** Analysis *)



(** C1, as the code has it: a response whose text does not parse makes
    [analyzeGame] fail with the invalid-format error, and the request ends
    with the analysis cleared to [null] (it is cleared before the call,
    whatever was displayed) and the generic failure message. *)
Theorem startAnalysis_response s (text : option jsstring) :
  analysis_requested s = true ->
  Json.parse (text_ToString text) = None ->
  analyzeGame (AiResponse text) = Throw InvalidAnalysisFormat
  /\ dispatch (StartAnalysis (AiResponse text)) s
     = (s |> setAnalysis Json.JNull
          |> setError (Some (js "Analysis failed. Please try again."))
          |> setIsAnalyzing false)
  /\ analysis (dispatch (StartAnalysis (AiResponse text)) s) = Json.JNull.
Proof.
  intros G Hp. unfold analysis_requested in G. apply negb_true_iff in G.
  unfold dispatch. simpl. unfold startAnalysis. rewrite G. simpl.
  rewrite Hp. split; [reflexivity|].
  simpl. rewrite render_same_pgn by reflexivity. now destruct s.
Qed.

(** ** Reset *)

(** C2, as the code has it: the reset returns the board, the PGN text, the
    move list, the move index, the analysis, the chat transcript and the
    error to their initial values, and leaves every other cell, the input
    mode and the username among them, as it was. *)
Theorem resetGame_cells s :
  let s' := dispatch ResetGame s in
  (game s' = game initial_state
   /\ pgn s' = pgn initial_state
   /\ moveHistory s' = moveHistory initial_state
   /\ currentMoveIndex s' = currentMoveIndex initial_state
   /\ analysis s' = analysis initial_state
   /\ chatMessages s' = chatMessages initial_state
   /\ error s' = error initial_state)
  /\ (inputMode s' = inputMode s
      /\ username s' = username s
      /\ recentGames s' = recentGames s
      /\ isSearchingLichess s' = isSearchingLichess s
      /\ showGameSelector s' = showGameSelector s
      /\ isAnalyzing s' = isAnalyzing s
      /\ activeTab s' = activeTab s
      /\ userQuery s' = userQuery s
      /\ isThinking s' = isThinking s).
Proof.
  unfold dispatch. simpl. rewrite render_pgn_empty by reflexivity.
  simpl. repeat split.
Qed.

(** ** Moves on the board *)

(** C4: a drop that is not a legal move is answered with [false] and changes
    no cell of the session: the move list, the move index, the displayed
    position and the error are what they were, and nothing is requested. *)
Theorem illegal_drop_ignored s (sourceSquare targetSquare : jsstring) :
  ~ legal_drop s sourceSquare targetSquare ->
  onDrop sourceSquare targetSquare s = (s, false)
  /\ dispatch (Drop sourceSquare targetSquare) s = s
  /\ requests (Drop sourceSquare targetSquare) s = [].
Proof.
  intros Hill.
  assert (H : onDrop sourceSquare targetSquare s = (s, false)).
  { unfold onDrop, makeAMove.
    destruct (Chess.of_fen (Chess.fen (game s))) as [gameCopy|] eqn:Hc;
      [|reflexivity].
    destruct (Chess.move gameCopy _) as [moved| |] eqn:Hm; try reflexivity.
    exfalso. apply Hill. now exists gameCopy, moved. }
  split; [exact H|]. split; [|reflexivity].
  unfold dispatch. simpl. rewrite H. simpl. now apply render_same_pgn.
Qed.

(** ** Chat *)

(** C7: with an input that is empty or only white space, and also while a
    reply is awaited, sending is a no-op: the transcript and every other
    cell stay as they are and the AI client is not called. *)
Theorem handleSendChat_guard s (response : Completion jsstring) :
  whitespace_only (userQuery s) \/ isThinking s = true ->
  handleSendChat response s = (s, [])
  /\ chatMessages (dispatch (SendChat response) s) = chatMessages s
  /\ dispatch (SendChat response) s = s
  /\ requests (SendChat response) s = [].
Proof.
  intros H.
  assert (G : falsy (trim (userQuery s)) || isThinking s = true).
  { destruct H as [H|H].
    - apply falsy_trim_iff in H. now rewrite H.
    - rewrite H. apply orb_true_r. }
  assert (E : handleSendChat response s = (s, []))
    by (unfold handleSendChat; now rewrite G).
  unfold dispatch, requests. simpl. rewrite E. simpl.
  rewrite render_same_pgn by reflexivity. auto.
Qed.

(** The guard of [handleSendChat] stops nothing else. *)
Lemma handleSendChat_sends s (response : Completion jsstring) :
  ~ whitespace_only (userQuery s) -> isThinking s = false ->
  requests (SendChat response) s
  = [ChatWithAssistant (userQuery s) (or_else (pgn s) (Chess.pgn (game s)))
       (Chess.fen (game s)) (chatMessages s) (analysis s)].
Proof.
  intros Hq Ht. unfold requests. simpl. unfold handleSendChat.
  destruct (falsy (trim (userQuery s))) eqn:F.
  - apply falsy_trim_iff in F. contradiction.
  - rewrite Ht. reflexivity.
Qed.

End SessionFacts.

(* ================================================================== *)
(** * Navigation in the move list *)
(* ================================================================== *)

Section NavigationFacts.

Context {host : JsHost} {engine : Chess.Engine}.

Implicit Types s : AppState.



Lemma navigateToMove_shape s s1 (index : Z) :
  navigateToMove index s = Some s1 ->
  s1 = s \/ exists g, s1 = (s |> setGame g |> setCurrentMoveIndex index).
Proof.
  unfold navigateToMove. destruct (falsy (pgn s)).
  - intros H. injection H as <-. now left.
  - destruct (Chess.loadPgn Chess.new (pgn s)) as [loaded|]; [|discriminate].
    destruct (replay_loop _ _ _ _) as [g|]; [|discriminate].
    intros H. injection H as <-. right. now exists g.
Qed.





(** C10: with an empty PGN text [navigateToMove] queues no update, whatever
    the index: each navigation control leaves the displayed position, the
    move index and every other cell as they are. *)
Theorem navigateToMove_empty_pgn s (index : Z) :
  pgn s = js "" ->
  navigateToMove index s = Some s
  /\ dispatch PreviousMove s = s
  /\ dispatch NextMove s = s
  /\ forall idx, dispatch (ClickMove idx) s = s.
Proof.
  intros H.
  assert (E : forall i, navigateToMove i s = Some s)
    by (intros i; unfold navigateToMove; now rewrite H).
  unfold dispatch. simpl. rewrite !E. simpl.
  rewrite render_same_pgn by reflexivity. repeat split.
  intros idx. rewrite E. simpl. now apply render_same_pgn.
Qed.

(** ** The range of the move index *)

Lemma pgn_effect_index_in_range s :
  index_in_range s -> index_in_range (pgn_effect s).
Proof.
  unfold pgn_effect, index_in_range. intros H.
  destruct (falsy (pgn s)); [exact H|].
  destruct (Chess.loadPgn Chess.new (pgn s)) as [loaded|]; simpl; [lia|exact H].
Qed.

Lemma render_index_in_range s s' :
  index_in_range s' -> index_in_range (render s s').
Proof.
  intros H. unfold render. destruct (JsString.eqb (pgn s) (pgn s')); [exact H|].
  now apply pgn_effect_index_in_range.
Qed.

Lemma navigate_index_in_range s (index : Z) :
  index_in_range s ->
  (-1 <= index <= Z.of_nat (List.length (moveHistory s)) - 1)%Z ->
  index_in_range (or_unchanged s (navigateToMove index s)).
Proof.
  intros Hs Hi. destruct (navigateToMove index s) as [s1|] eqn:E; [|exact Hs].
  apply navigateToMove_shape in E. destruct E as [->|(g & ->)]; [exact Hs|].
  exact Hi.
Qed.

Lemma handle_index_in_range s (a : Action) :
  index_in_range s -> enabled s a = true -> index_in_range (fst (handle a s)).
Proof.
  intros Hs Hen. pose proof Hs as Hr. unfold index_in_range in Hr.
  destruct a; simpl in *; try exact Hs.
  - destruct file; exact Hs.
  - unfold handleLichessSearch. destruct (falsy (username s)); [exact Hs|].
    destruct (fetchRecentLichessGames response); exact Hs.
  - unfold selectLichessGame. destruct (fetchLichessGamePgn response); exact Hs.
  - unfold onDrop, makeAMove.
    destruct (Chess.of_fen _); [|exact Hs].
    destruct (Chess.move _ _); exact Hs.
  - unfold startAnalysis. destruct (_ && _); [exact Hs|].
    destruct (analyzeGame response); exact Hs.
  - unfold index_in_range. simpl. lia.
  - apply navigate_index_in_range; [exact Hs|].
    apply negb_true_iff, Z.ltb_ge in Hen. lia.
  - apply navigate_index_in_range; [exact Hs|].
    apply negb_true_iff in Hen. rewrite Z.geb_leb in Hen.
    apply Z.leb_gt in Hen. lia.
  - apply navigate_index_in_range; [exact Hs|].
    apply Nat.ltb_lt in Hen. lia.
  - unfold handleSendChat. destruct (_ || _); [exact Hs|].
    destruct response; exact Hs.
Qed.

(** The first half of the invariant of the data model holds for every
    engine: in a reachable state the move index is between -1 and the last
    index of the move list. *)
Theorem reachable_index_in_range s : reachable s -> index_in_range s.
Proof.
  induction 1 as [|s a _ IH Hen].
  - unfold index_in_range. simpl. lia.
  - unfold dispatch. apply render_index_in_range.
    now apply handle_index_in_range.
Qed.

(** ** A move made again after it was taken back

    [makeAMove] leaves the move list and the move index to the effect on
    [pgn]; the effect does not run when the PGN text it produces is the one
    already stored.  So it is for every engine: the first move on the board,
    the previous-move button, and the same move again. *)
Lemma replayed_move_keeps_index (sourceSquare targetSquare san : jsstring)
  (gameCopy moved loaded : Chess.t) :
  Chess.of_fen (Chess.fen Chess.new) = Some gameCopy ->
  Chess.move gameCopy (Chess.FromTo sourceSquare targetSquare (js "q"))
  = Chess.Moved moved ->
  Chess.pgn moved <> js "" ->
  Chess.loadPgn Chess.new (Chess.pgn moved) = Some loaded ->
  Chess.history loaded = [san] ->
  let drop := Drop sourceSquare targetSquare in
  let s := run_actions [drop; PreviousMove; drop] initial_state in
  game s = moved /\ moveHistory s = [san] /\ currentMoveIndex s = (-1)%Z.
Proof.
  intros Hc Hm Hp Hl Hh drop s.
  assert (F : falsy (Chess.pgn moved) = false)
    by (destruct (Chess.pgn moved); [now elim Hp|reflexivity]).
  assert (N : JsString.eqb (js "") (Chess.pgn moved) = false).
  { destruct (JsString.eqb (js "") (Chess.pgn moved)) eqn:E; [|reflexivity].
    apply eqb_eq in E. now elim Hp. }
  set (s1 := initial_state |> setPgn (Chess.pgn moved) |> setMoveHistory [san]
                |> setCurrentMoveIndex 0 |> setGame loaded).
  assert (E1 : click drop initial_state = s1).
  { unfold click, dispatch. simpl. unfold onDrop, makeAMove. simpl.
    rewrite Hc, Hm. simpl. unfold render. simpl. rewrite N.
    unfold pgn_effect. simpl. now rewrite F, Hl, Hh. }
  assert (E2 : click PreviousMove s1 = (s1 |> setGame Chess.new
                                           |> setCurrentMoveIndex (-1))).
  { unfold click, dispatch. simpl. unfold navigateToMove. simpl.
    rewrite F, Hl. simpl. now rewrite render_same_pgn. }
  assert (E3 : click drop (s1 |> setGame Chess.new |> setCurrentMoveIndex (-1))
               = (s1 |> setCurrentMoveIndex (-1) |> setGame moved)).
  { unfold click, dispatch. simpl. unfold onDrop, makeAMove. simpl.
    rewrite Hc, Hm. simpl. now rewrite render_same_pgn. }
  subst s. unfold run_actions. simpl. rewrite E1, E2, E3. repeat split.
Qed.

Lemma reachable_click s (a : Action) : reachable s -> reachable (click a s).
Proof.
  intros H. unfold click. destruct (enabled s a) eqn:E; [|exact H].
  now apply reachable_dispatch.
Qed.

Lemma reachable_run_actions (actions : list Action) s :
  reachable s -> reachable (run_actions actions s).
Proof.
  revert s. induction actions as [|a actions IH]; intros s H; [exact H|].
  simpl. apply IH. now apply reachable_click.
Qed.

End NavigationFacts.

(* ================================================================== *)
(** * The handlers on concrete sessions *)
(* ================================================================== *)

Example full_analysis_conforms :
  option_map (conforms responseSchema) (Json.parse full_analysis_text) = Some true.
Proof. vm_compute. reflexivity. Qed.

(** The scenario of the spec: the PGN 1. e4 e5 2. Nf3 gives a move list of
    three moves and the index of the last one. *)
Example uploaded_three_moves :
  moveHistory uploaded = [js "e4"; js "e5"; js "Nf3"]
  /\ currentMoveIndex uploaded = 2%Z
  /\ error uploaded = None.
Proof. vm_compute. auto. Qed.

(** C1 fails on the code: a response without the [endgame] field parses, so
    [analyzeGame] returns it, and the analysis that was on display is gone
    after the request, as it also is after a response that does not parse. *)
Lemma startAnalysis_missing_endgame_counterexample :
  let response := AiResponse (Some no_endgame_text) in
  analysis_requested analysed = true
  /\ conforms responseSchema (analysis analysed) = true
  /\ (exists v,
        Json.parse no_endgame_text = Some v
        /\ Json.get "endgame" v = None
        /\ conforms responseSchema v = false
        /\ analyzeGame response = Normal v)
  /\ analyzeGame response <> Throw InvalidAnalysisFormat
  /\ analysis (dispatch (StartAnalysis response) analysed) <> analysis analysed
  /\ analysis (dispatch (StartAnalysis (AiResponse (Some (js "Sorry.")))) analysed)
     <> analysis analysed.
Proof.
  repeat split.
  - eexists. repeat split.
  - vm_compute. discriminate.
  - vm_compute. discriminate.
  - vm_compute. discriminate.
Qed.

Lemma startAnalysis_response_witness :
  (analyzeGame (AiResponse None) = Throw InvalidAnalysisFormat
   /\ dispatch (StartAnalysis (AiResponse None)) analysed
      = (analysed |> setAnalysis Json.JNull
           |> setError (Some (js "Analysis failed. Please try again."))
           |> setIsAnalyzing false)
   /\ analysis (dispatch (StartAnalysis (AiResponse None)) analysed)
      = Json.JNull)
  /\ (analyzeGame (AiResponse (Some (js "Sorry."))) = Throw InvalidAnalysisFormat
      /\ dispatch (StartAnalysis (AiResponse (Some (js "Sorry.")))) analysed
         = (analysed |> setAnalysis Json.JNull
              |> setError (Some (js "Analysis failed. Please try again."))
              |> setIsAnalyzing false)
      /\ analysis (dispatch (StartAnalysis (AiResponse (Some (js "Sorry."))))
                            analysed)
         = Json.JNull).
Proof.
  split.
  - apply (startAnalysis_response analysed None eq_refl).
    vm_compute. reflexivity.
  - apply (startAnalysis_response analysed (Some (js "Sorry.")) eq_refl).
    vm_compute. reflexivity.
Defined.

(** C2 fails on the code: after the reset the input mode and the username
    are not the initial ones. *)
Lemma resetGame_keeps_mode_counterexample :
  let s := run_actions [SetInputMode lichess; SetUsername (js "DrNykterstein")]
                       initial_state in
  inputMode (dispatch ResetGame s) <> inputMode initial_state
  /\ username (dispatch ResetGame s) <> username initial_state
  /\ dispatch ResetGame s <> initial_state.
Proof.
  cbv zeta. split; [|split].
  - vm_compute. discriminate.
  - vm_compute. discriminate.
  - intros H. apply (f_equal inputMode) in H. vm_compute in H. discriminate.
Qed.

(** C3 fails on the code.  The first move is made, taken back with the
    previous-move button and made again: the PGN text the second drop
    produces is the one already stored, the effect does not run, and the
    session shows the position after 1. e4 with the move index at -1. *)
Theorem index_stale_after_replayed_move :
  let s := run_actions replayed_first_move initial_state in
  reachable s
  /\ moveHistory s = [js "e4"]
  /\ currentMoveIndex s = (-1)%Z
  /\ position_after (moveHistory s) (currentMoveIndex s) = Some Chess.new
  /\ Chess.fen (game s) <> Chess.fen Chess.new
  /\ position_after (moveHistory s) 0 = Some (game s).
Proof.
  split; [apply reachable_run_actions, reachable_initial|].
  repeat split; vm_compute; discriminate.
Qed.

(** The second move made on the board: the copy of the game is created from
    the position alone, its PGN holds that one move, and the move list
    becomes that move. *)
Example history_lost_after_second_move :
  let s := run_actions [e2e4; Drop (js "e7") (js "e5")] initial_state in
  moveHistory s = [js "e5"]
  /\ currentMoveIndex s = 0%Z
  /\ position_after (moveHistory s) (currentMoveIndex s) = None.
Proof. vm_compute. auto. Qed.

Lemma illegal_drop_ignored_witness :
  onDrop (js "e2") (js "e5") initial_state = (initial_state, false)
  /\ dispatch (Drop (js "e2") (js "e5")) initial_state = initial_state
  /\ requests (Drop (js "e2") (js "e5")) initial_state = [].
Proof.
  apply illegal_drop_ignored.
  intros (gameCopy & moved & Hc & Hm).
  vm_compute in Hc. injection Hc as <-. vm_compute in Hm. discriminate.
Defined.


Lemma handleSendChat_guard_witness :
  let blank := uploaded |> setUserQuery (js "  " ++ [9%N]) in
  let busy := uploaded |> setUserQuery (js "Why Nf3?") |> setIsThinking true in
  (handleSendChat (Normal (js "Develops.")) blank = (blank, [])
   /\ chatMessages (dispatch (SendChat (Normal (js "Develops."))) blank)
      = chatMessages blank
   /\ dispatch (SendChat (Normal (js "Develops."))) blank = blank
   /\ requests (SendChat (Normal (js "Develops."))) blank = [])
  /\ (handleSendChat (Normal (js "Develops.")) busy = (busy, [])
   /\ chatMessages (dispatch (SendChat (Normal (js "Develops."))) busy)
      = chatMessages busy
   /\ dispatch (SendChat (Normal (js "Develops."))) busy = busy
   /\ requests (SendChat (Normal (js "Develops."))) busy = []).
Proof.
  split.
  - apply handleSendChat_guard. left. vm_compute. repeat constructor.
  - apply handleSendChat_guard. right. reflexivity.
Defined.



Lemma navigateToMove_empty_pgn_witness :
  navigateToMove 5 initial_state = Some initial_state
  /\ dispatch PreviousMove initial_state = initial_state
  /\ dispatch NextMove initial_state = initial_state
  /\ forall idx, dispatch (ClickMove idx) initial_state = initial_state.
Proof.
  apply navigateToMove_empty_pgn. reflexivity.
Defined.

(* ================================================================== *)
(** * More on the game-server client *)
(* ================================================================== *)

Section LichessBodyFacts.

Context {host : JsHost}.

Lemma trimStart_app_whitespace (w s : jsstring) :
  whitespace_only w -> trimStart (w ++ s) = trimStart s.
Proof.
  induction 1 as [|c r Hc _ IH]; simpl; [reflexivity|].
  now rewrite Hc.
Qed.

Lemma trimEnd_app_whitespace (s w : jsstring) :
  whitespace_only w -> trimEnd (s ++ w) = trimEnd s.
Proof.
  intros H. unfold trimEnd. rewrite rev_app_distr.
  rewrite trimStart_app_whitespace; [reflexivity|].
  now apply Forall_rev.
Qed.

Lemma trim_app_whitespace (s w : jsstring) :
  whitespace_only w -> trim (s ++ w) = trim s.
Proof.
  intros H. unfold trim. induction s as [|c r IH]; simpl.
  - now rewrite (trimStart_whitespace_only H).
  - destruct (is_white_space c); [exact IH|].
    change (c :: r ++ w) with ((c :: r) ++ w).
    now apply trimEnd_app_whitespace.
Qed.

Lemma trim_padding (w1 s w2 : jsstring) :
  whitespace_only w1 -> whitespace_only w2 -> trim (w1 ++ s ++ w2) = trim s.
Proof.
  intros H1 H2. rewrite <- (trim_app_whitespace s H2).
  unfold trim. now rewrite (trimStart_app_whitespace _ H1).
Qed.

(** White space around the body, such as the line feed that ends the last
    line, does not change what [fetchRecentLichessGames] returns or throws. *)
Theorem fetchRecentLichessGames_padding (w1 body w2 : jsstring) (ok : bool) :
  whitespace_only w1 -> whitespace_only w2 ->
  fetchRecentLichessGames (FetchResponse ok (w1 ++ body ++ w2))
  = fetchRecentLichessGames (FetchResponse ok body).
Proof.
  intros H1 H2. simpl. now rewrite (trim_padding body H1 H2).
Qed.

Lemma split_lf_blank_line (a b : jsstring) :
  In [] (tl (split_lf (a ++ 10%N :: 10%N :: b))).
Proof.
  induction a as [|c a IH]; simpl.
  - now left.
  - destruct (N.eqb c 10); simpl.
    + destruct (split_lf (a ++ 10%N :: 10%N :: b)) as [|l ls]; simpl in *;
        [contradiction|now right].
    + destruct (split_lf (a ++ 10%N :: 10%N :: b)) as [|l ls]; simpl in *;
        [contradiction|exact IH].
Qed.

(** An empty line inside the body makes the call throw: when the trimmed
    body has two line feeds in a row, no list is returned, whatever the
    other lines are. *)
Theorem fetchRecentLichessGames_blank_line (body a b : jsstring) :
  trim body = a ++ 10%N :: 10%N :: b ->
  exists bad,
    fetchRecentLichessGames (FetchResponse true body)
    = Throw {| name := js "SyntaxError"; message := syntax_error_message bad |}.
Proof.
  intros H. simpl. rewrite H.
  destruct (map_JSON_parse_Throw (split_lf (a ++ 10%N :: 10%N :: b)))
    as (bad & _ & E).
  - exists []. split; [|reflexivity].
    pose proof (split_lf_blank_line a b) as Hin.
    destruct (split_lf (a ++ 10%N :: 10%N :: b)); simpl in *;
      [contradiction|now right].
  - now exists bad.
Qed.

Lemma split_lf_length (s : jsstring) :
  List.length (split_lf s) = S (count_occ N.eq_dec s 10%N).
Proof.
  induction s as [|c r IH]; simpl; [reflexivity|].
  destruct (N.eqb_spec c 10) as [->|Hc].
  - simpl. rewrite IH. destruct (N.eq_dec 10 10); congruence.
  - destruct (N.eq_dec c 10) as [E|_]; [contradiction|].
    destruct (split_lf r); simpl in *; [discriminate|exact IH].
Qed.

(** One game per line: a call that returns gives as many games as the
    trimmed body has line feeds, plus one. *)
Theorem fetchRecentLichessGames_count (body : jsstring) (games : list Json.value) :
  fetchRecentLichessGames (FetchResponse true body) = Normal games ->
  List.length games = S (count_occ N.eq_dec (trim body) 10%N).
Proof.
  simpl. intros H. apply map_JSON_parse_length in H.
  now rewrite H, split_lf_length.
Qed.

End LichessBodyFacts.

Lemma fetchRecentLichessGames_padding_witness :
  fetchRecentLichessGames
    (FetchResponse true ([13%N; 10%N] ++ quoted "{'id':'q7ZvsdUF'}" ++ [10%N; 32%N]))
  = fetchRecentLichessGames (FetchResponse true (quoted "{'id':'q7ZvsdUF'}")).
Proof.
  apply fetchRecentLichessGames_padding; repeat constructor.
Defined.

Lemma fetchRecentLichessGames_blank_line_witness :
  exists bad,
    fetchRecentLichessGames
      (FetchResponse true
         (quoted "{'id':'q7ZvsdUF'}" ++ 10%N :: 10%N :: quoted "{'id':'X1yTb0Qe'}"))
    = Throw {| name := js "SyntaxError"; message := syntax_error_message bad |}.
Proof.
  apply fetchRecentLichessGames_blank_line
    with (a := quoted "{'id':'q7ZvsdUF'}") (b := quoted "{'id':'X1yTb0Qe'}").
  vm_compute. reflexivity.
Defined.

Lemma fetchRecentLichessGames_count_witness :
  List.length [Json.JObject [(js "id", Json.JString (js "q7ZvsdUF"))];
               Json.JObject [(js "id", Json.JString (js "X1yTb0Qe"))]]
  = S (count_occ N.eq_dec (trim two_games) 10%N).
Proof.
  apply fetchRecentLichessGames_count. vm_compute. reflexivity.
Defined.

(* ================================================================== *)
(** * The message of the chat *)
(* ================================================================== *)

Section ChatPromptFacts.

Lemma join_lf_cons (p : jsstring) (ps : list jsstring) :
  ps <> [] -> join_lf (p :: ps) = p ++ 10%N :: join_lf ps.
Proof.
  destruct ps; [congruence|reflexivity].
Qed.

Lemma join_lf_snoc (ps : list jsstring) (x : jsstring) :
  ps <> [] -> join_lf (ps ++ [x]) = join_lf ps ++ 10%N :: x.
Proof.
  induction ps as [|p ps IH]; [congruence|]. intros _.
  destruct ps as [|p' ps].
  - reflexivity.
  - change ((p :: p' :: ps) ++ [x]) with (p :: ((p' :: ps) ++ [x])).
    rewrite (@join_lf_cons p ((p' :: ps) ++ [x])) by discriminate.
    rewrite IH by discriminate.
    rewrite (@join_lf_cons p (p' :: ps)) by discriminate.
    now rewrite <- app_assoc.
Qed.

(** The message sent is the transcript with the new question at its end,
    flattened; on a new conversation it starts with a line feed. *)
Theorem finalPrompt_flattens (query : jsstring)
  (previousMessages : list ChatMessage) :
  finalPrompt query previousMessages
  = (match previousMessages with [] => [10%N] | _ => [] end)
      ++ historyPrompt (previousMessages ++ [mkChatMessage user query]).
Proof.
  unfold finalPrompt, historyPrompt.
  destruct previousMessages as [|m ms]; [reflexivity|].
  rewrite map_app.
  change (map history_line [mkChatMessage user query])
    with [history_line (mkChatMessage user query)].
  rewrite (@join_lf_snoc (map history_line (m :: ms))) by discriminate.
  reflexivity.
Qed.

Lemma join_lf_merge_last (ps : list jsstring) (x y : jsstring) :
  join_lf (ps ++ [x; y]) = join_lf (ps ++ [x ++ 10%N :: y]).
Proof.
  induction ps as [|p ps IH]; [reflexivity|].
  change ((p :: ps) ++ [x; y]) with (p :: (ps ++ [x; y])).
  change ((p :: ps) ++ [x ++ 10%N :: y]) with (p :: (ps ++ [x ++ 10%N :: y])).
  rewrite !join_lf_cons by (destruct ps; discriminate).
  now rewrite IH.
Qed.

(** The flattening keeps no trace of where a message ends: a question and
    its answer give the same message to send as the one question that
    holds both, the answer after a line feed and the answer's label. *)
Theorem finalPrompt_merges_messages (query question answer : jsstring)
  (earlier : list ChatMessage) :
  finalPrompt query
    (earlier ++ [mkChatMessage user question; mkChatMessage assistant answer])
  = finalPrompt query
      (earlier ++ [mkChatMessage user
                     (question ++ [10%N] ++ js "Assistant: " ++ answer)]).
Proof.
  unfold finalPrompt, historyPrompt. f_equal.
  rewrite !map_app. simpl map.
  rewrite join_lf_merge_last. unfold history_line. simpl.
  reflexivity.
Qed.

(** What [chatWithAssistant] returns is never the empty string: an absent
    or empty text of the answer is replaced by the apology. *)
Theorem sendMessage_reply_not_empty (result : ChatOutcome) (reply : jsstring) :
  sendMessage_reply result = Normal reply -> reply <> js "".
Proof.
  destruct result as [e|[t|]]; simpl; intros H; [discriminate| |];
    injection H as <-.
  - destruct t; discriminate.
  - discriminate.
Qed.

End ChatPromptFacts.

Lemma sendMessage_reply_not_empty_witness : apology <> js "".
Proof.
  apply (@sendMessage_reply_not_empty (ChatResponse (Some (js "")))).
  reflexivity.
Defined.

(* ================================================================== *)
(** * The score cards and the move buttons *)
(* ================================================================== *)

Section CardFacts.

(** The two colour classes of a score card go together: the text and the
    background are of the same one of the four colours, for every number,
    the infinities and NaN included. *)
Theorem getColor_getBg_agree (score : JsNumber) :
  (getColor score = js "text-emerald-400"
   <-> getBg score = js "bg-emerald-500/10 border-emerald-500/30")
  /\ (getColor score = js "text-indigo-400"
      <-> getBg score = js "bg-indigo-500/10 border-indigo-500/30")
  /\ (getColor score = js "text-amber-400"
      <-> getBg score = js "bg-amber-500/10 border-amber-500/30")
  /\ (getColor score = js "text-red-400"
      <-> getBg score = js "bg-red-500/10 border-red-500/30").
Proof.
  unfold getColor, getBg.
  destruct (number_ge score 80); [|destruct (number_ge score 60);
    [|destruct (number_ge score 40)]];
    repeat split; intros H; try reflexivity; vm_compute in H; discriminate.
Qed.

(** The label of a move button tells its index: the index is twice the move
    number less one, less one more when the dots are those of White. *)
Theorem move_label_index (idx : nat) :
  idx = (2 * (move_number idx - 1)
         + (if JsString.eqb (move_dots idx) (js ".") then 0 else 1))%nat.
Proof.
  unfold move_number, move_dots.
  pose proof (Nat.div_mod_eq idx 2) as D.
  pose proof (Nat.mod_upper_bound idx 2 ltac:(lia)) as U.
  destruct (Nat.eqb_spec (idx mod 2) 0) as [E|E].
  - change (JsString.eqb (js ".") (js ".")) with true. cbv iota. lia.
  - change (JsString.eqb (js "...") (js ".")) with false. cbv iota. lia.
Qed.

End CardFacts.

(* ================================================================== *)
(** * Invariants of the session *)
(* ================================================================== *)

Section SessionInvariants.

Context {host : JsHost} {engine : Chess.Engine}.

Implicit Types s : AppState.

(** The three outcomes of [navigateToMove]: nothing queued, the board and
    the index written, or a throw. *)
Ltac navigation_cases s :=
  let E := fresh "E" in
  destruct (navigateToMove _ s) as [?|] eqn:E;
  [apply navigateToMove_shape in E; destruct E as [->|(? & ->)]|].

(** The effect writes the move list, the move index, the board and the
    error, and nothing else. *)
Lemma render_cells s s' :
  pgn (render s s') = pgn s'
  /\ analysis (render s s') = analysis s'
  /\ chatMessages (render s s') = chatMessages s'
  /\ isAnalyzing (render s s') = isAnalyzing s'
  /\ isSearchingLichess (render s s') = isSearchingLichess s'
  /\ isThinking (render s s') = isThinking s'
  /\ recentGames (render s s') = recentGames s'
  /\ showGameSelector (render s s') = showGameSelector s'
  /\ inputMode (render s s') = inputMode s'
  /\ username (render s s') = username s'.
Proof.
  unfold render, pgn_effect.
  destruct (JsString.eqb (pgn s) (pgn s')); [repeat split|].
  destruct (falsy (pgn s')); [repeat split|].
  destruct (Chess.loadPgn Chess.new (pgn s')); repeat split.
Qed.

Lemma handle_moveHistory (a : Action) s :
  moveHistory (fst (handle a s)) = moveHistory s
  \/ pgn (fst (handle a s)) = js "".
Proof.
  destruct a; simpl; try (now left).
  - destruct file; now left.
  - unfold handleLichessSearch. destruct (falsy (username s)); [now left|].
    destruct (fetchRecentLichessGames response); now left.
  - unfold selectLichessGame. destruct (fetchLichessGamePgn response); now left.
  - unfold onDrop, makeAMove. destruct (Chess.of_fen _); [|now left].
    destruct (Chess.move _ _); now left.
  - unfold startAnalysis. destruct (_ && _); [now left|].
    destruct (analyzeGame response); now left.
  - now right.
  - navigation_cases s; now left.
  - navigation_cases s; now left.
  - navigation_cases s; now left.
  - unfold handleSendChat. destruct (_ || _); [now left|].
    destruct response; now left.
Qed.

Lemma render_history_matches_pgn s s' :
  history_matches_pgn s ->
  moveHistory s' = moveHistory s \/ pgn s' = js "" ->
  history_matches_pgn (render s s').
Proof.
  intros Hs Hm. unfold render.
  destruct (JsString.eqb (pgn s) (pgn s')) eqn:E.
  - apply eqb_eq in E. intros loaded Hne Hl.
    destruct Hm as [Hm|Hm]; [|contradiction].
    rewrite Hm. apply Hs; now rewrite E.
  - unfold pgn_effect. intros loaded.
    destruct (falsy (pgn s')) eqn:F.
    + intros Hne _. destruct (pgn s'); [now elim Hne|discriminate].
    + destruct (Chess.loadPgn Chess.new (pgn s')) as [t|] eqn:L; simpl.
      * rewrite L. intros _ H. now injection H as <-.
      * rewrite L. discriminate.
Qed.

Lemma reachable_cursor s :
  reachable s -> index_in_range s /\ history_matches_pgn s.
Proof.
  induction 1 as [|s a _ [IHr IHm] Hen].
  - split; [unfold index_in_range; simpl; lia|].
    intros loaded Hne. now elim Hne.
  - unfold dispatch. split.
    + now apply render_index_in_range, handle_index_in_range.
    + apply render_history_matches_pgn; [exact IHm|apply handle_moveHistory].
Qed.

(** In every reachable state whose PGN text loads, the move list on display
    is the history of that text: the buttons of the move list and the list
    [navigateToMove] walks through are the same. *)
Theorem reachable_history_matches_pgn s (loaded : Chess.t) :
  reachable s ->
  pgn s <> js "" ->
  Chess.loadPgn Chess.new (pgn s) = Some loaded ->
  moveHistory s = Chess.history loaded.
Proof.
  intros H. now apply (proj2 (reachable_cursor H)).
Qed.

(** Through the enabled controls the loop of [navigateToMove] stays inside
    the loaded history: it never reads past its end, so [move] is never
    called on [undefined]. *)
Theorem navigation_within_history s (a : Action) (index : Z) (loaded : Chess.t) :
  reachable s ->
  enabled s a = true ->
  navigation_index s a = Some index ->
  pgn s <> js "" ->
  Chess.loadPgn Chess.new (pgn s) = Some loaded ->
  (-1 <= index)%Z
  /\ forall i, (i < Z.to_nat (index + 1))%nat ->
               nth_error (Chess.history loaded) i <> None.
Proof.
  intros Hr Hen Hidx Hne Hl.
  destruct (reachable_cursor Hr) as [Hrange Hm].
  rewrite <- (Hm loaded Hne Hl).
  unfold index_in_range in Hrange.
  assert (B : (-1 <= index <= Z.of_nat (List.length (moveHistory s)) - 1)%Z).
  { destruct a; simpl in Hidx; try discriminate; injection Hidx as <-;
      simpl in Hen.
    - apply negb_true_iff, Z.ltb_ge in Hen. lia.
    - apply negb_true_iff in Hen. rewrite Z.geb_leb in Hen.
      apply Z.leb_gt in Hen. lia.
    - apply Nat.ltb_lt in Hen. lia. }
  split; [lia|]. intros i Hi. apply nth_error_Some. lia.
Qed.

Lemma dispatch_idle (a : Action) s : idle s -> idle (dispatch a s).
Proof.
  unfold idle, dispatch. intros (Ha & Hs & Ht).
  destruct (render_cells s (fst (handle a s)))
    as (_ & _ & _ & -> & -> & -> & _).
  destruct a; simpl; auto.
  - destruct file; simpl; auto.
  - unfold handleLichessSearch. destruct (falsy (username s)); simpl; auto.
    destruct (fetchRecentLichessGames response); simpl; auto.
  - unfold selectLichessGame.
    destruct (fetchLichessGamePgn response); simpl; auto.
  - unfold onDrop, makeAMove. destruct (Chess.of_fen _); simpl; auto.
    destruct (Chess.move _ _); simpl; auto.
  - unfold startAnalysis. destruct (_ && _); simpl; auto.
    destruct (analyzeGame response); simpl; auto.
  - navigation_cases s; simpl; auto.
  - navigation_cases s; simpl; auto.
  - navigation_cases s; simpl; auto.
  - unfold handleSendChat. rewrite Ht, orb_false_r.
    destruct (falsy (trim (userQuery s))); simpl; auto.
    destruct response; simpl; auto.
Qed.

(** No action leaves a loading flag up: whether the request succeeds or
    fails, [isAnalyzing], [isSearchingLichess] and [isThinking] are down
    again when the action is over, in every reachable state. *)
Theorem reachable_idle s : reachable s -> idle s.
Proof.
  induction 1 as [|s a _ IH _]; [repeat split|].
  now apply dispatch_idle.
Qed.

(** The transcript only grows, except on a reset: after any other action
    the messages that were there are still there, in the same order, with
    at most two more after them. *)
Theorem chatMessages_append_only (a : Action) s :
  a <> ResetGame ->
  exists added,
    chatMessages (dispatch a s) = chatMessages s ++ added
    /\ (List.length added <= 2)%nat.
Proof.
  intros Hreset. unfold dispatch.
  destruct (render_cells s (fst (handle a s))) as (_ & _ & -> & _).
  assert (Same : forall s', chatMessages s' = chatMessages s ->
            exists added, chatMessages s' = chatMessages s ++ added
                          /\ (List.length added <= 2)%nat).
  { intros s' E. exists []. rewrite app_nil_r. split; [exact E|simpl; lia]. }
  destruct a; simpl; try (apply Same; reflexivity); try congruence.
  - destruct file; apply Same; reflexivity.
  - unfold handleLichessSearch. destruct (falsy (username s));
      [apply Same; reflexivity|].
    destruct (fetchRecentLichessGames response); apply Same; reflexivity.
  - unfold selectLichessGame.
    destruct (fetchLichessGamePgn response); apply Same; reflexivity.
  - unfold onDrop, makeAMove. destruct (Chess.of_fen _);
      [|apply Same; reflexivity].
    destruct (Chess.move _ _); apply Same; reflexivity.
  - unfold startAnalysis. destruct (_ && _); [apply Same; reflexivity|].
    destruct (analyzeGame response); apply Same; reflexivity.
  - navigation_cases s; apply Same; reflexivity.
  - navigation_cases s; apply Same; reflexivity.
  - navigation_cases s; apply Same; reflexivity.
  - unfold handleSendChat. destruct (_ || _); [apply Same; reflexivity|].
    destruct response as [reply|e]; simpl.
    + exists [mkChatMessage user (userQuery s); mkChatMessage assistant reply].
      split; [now rewrite <- app_assoc|simpl; lia].
    + exists [mkChatMessage user (userQuery s)]. split; [reflexivity|simpl; lia].
Qed.

(** The analysis on display is written by the analysis request and by the
    reset only: loading another game, or moving on the board, keeps the
    analysis of the game that was analysed. *)
Theorem analysis_kept (a : Action) s :
  a <> ResetGame -> (forall response, a <> StartAnalysis response) ->
  analysis (dispatch a s) = analysis s.
Proof.
  intros Hreset Hstart. unfold dispatch.
  destruct (render_cells s (fst (handle a s))) as (_ & -> & _).
  destruct a; simpl; try reflexivity; try congruence.
  - destruct file; reflexivity.
  - unfold handleLichessSearch. destruct (falsy (username s)); [reflexivity|].
    destruct (fetchRecentLichessGames response); reflexivity.
  - unfold selectLichessGame. destruct (fetchLichessGamePgn response); reflexivity.
  - unfold onDrop, makeAMove. destruct (Chess.of_fen _); [|reflexivity].
    destruct (Chess.move _ _); reflexivity.
  - navigation_cases s; reflexivity.
  - navigation_cases s; reflexivity.
  - navigation_cases s; reflexivity.
  - unfold handleSendChat. destruct (_ || _); [reflexivity|].
    destruct response; reflexivity.
Qed.

End SessionInvariants.

(* ================================================================== *)
(** * Loading a game, moving and searching *)
(* ================================================================== *)

Section SessionBehaviour.

Context {host : JsHost} {engine : Chess.Engine}.

Implicit Types s : AppState.

Lemma render_new_pgn s s' :
  pgn s' <> pgn s -> pgn s' <> js "" ->
  render s s'
  = match Chess.loadPgn Chess.new (pgn s') with
    | Some loaded =>
        s' |> setMoveHistory (Chess.history loaded)
           |> setCurrentMoveIndex
                (Z.of_nat (List.length (Chess.history loaded)) - 1)
           |> setGame loaded
    | None => s' |> setError (Some (js "Invalid PGN data."))
    end.
Proof.
  intros Hd Hne. unfold render.
  destruct (JsString.eqb (pgn s) (pgn s')) eqn:E.
  - apply eqb_eq in E. congruence.
  - unfold pgn_effect. destruct (pgn s'); [now elim Hne|reflexivity].
Qed.

(** Loading a PGN text from a file.  A text that loads replaces the move
    list, puts the index on the last move and shows the loaded game, and
    leaves the error cell as it was; a text that does not load is stored all
    the same, with the error set and the move list, the index and the board
    untouched. *)
Theorem handlePgnUpload_outcome s (content : jsstring) :
  content <> js "" -> content <> pgn s ->
  (forall loaded,
      Chess.loadPgn Chess.new content = Some loaded ->
      dispatch (PgnUpload (Some content)) s
      = (s |> setPgn content |> setInputMode pgn_mode
           |> setMoveHistory (Chess.history loaded)
           |> setCurrentMoveIndex
                (Z.of_nat (List.length (Chess.history loaded)) - 1)
           |> setGame loaded))
  /\ (Chess.loadPgn Chess.new content = None ->
      dispatch (PgnUpload (Some content)) s
      = (s |> setPgn content |> setInputMode pgn_mode
           |> setError (Some (js "Invalid PGN data.")))).
Proof.
  intros Hne Hd. unfold dispatch. simpl.
  rewrite render_new_pgn by assumption. simpl.
  split; [intros loaded H|intros H]; now rewrite H.
Qed.

(** Choosing again the text that is stored changes the input mode only:
    the effect does not run, so the index stays where the user had
    navigated and an error on display stays. *)
Theorem handlePgnUpload_same_text s :
  dispatch (PgnUpload (Some (pgn s))) s = (s |> setInputMode pgn_mode).
Proof.
  unfold dispatch. simpl. rewrite render_same_pgn by reflexivity.
  now destruct s.
Qed.

(** A game fetched from the server is loaded like an uploaded one: the two
    sessions differ in the input mode, the closed selector and the lowered
    flag only. *)
Theorem selectLichessGame_like_upload s (gameId body : jsstring) :
  dispatch (SelectLichessGame gameId (FetchResponse true body)) s
  = (dispatch (PgnUpload (Some body)) s
       |> setInputMode lichess |> setShowGameSelector false
       |> setIsAnalyzing false).
Proof.
  unfold dispatch, render, pgn_effect. simpl.
  destruct (JsString.eqb (pgn s) body); [reflexivity|].
  destruct (falsy body); [reflexivity|].
  destruct (Chess.loadPgn Chess.new body); reflexivity.
Qed.

(** While the stored PGN text does not load, the navigation controls do
    nothing, and an analysis request sends that text, not the game on the
    board. *)
Theorem unloadable_pgn_session s (response : AiOutcome) :
  pgn s <> js "" ->
  Chess.loadPgn Chess.new (pgn s) = None ->
  (forall index, navigateToMove index s = None)
  /\ dispatch PreviousMove s = s
  /\ dispatch NextMove s = s
  /\ (forall idx, dispatch (ClickMove idx) s = s)
  /\ requests (StartAnalysis response) s
     = [GenerateContent (analyze_contents (pgn s))].
Proof.
  intros Hne Hl.
  assert (F : falsy (pgn s) = false)
    by (destruct (pgn s); [now elim Hne|reflexivity]).
  assert (N : forall index, navigateToMove index s = None)
    by (intros index; unfold navigateToMove; now rewrite F, Hl).
  split; [exact N|].
  unfold dispatch, requests. simpl. rewrite !N. simpl.
  rewrite render_same_pgn by reflexivity.
  repeat split.
  - intros idx. rewrite N. simpl. now apply render_same_pgn.
  - unfold startAnalysis, or_else. now rewrite F.
Qed.

(** Where a jump lands does not depend on where it starts: after a jump to
    one index, a jump to another gives the state the second jump alone
    gives. *)
Theorem navigateToMove_last_wins s s1 s2 (first second : Z) :
  navigateToMove first s = Some s1 ->
  navigateToMove second s = Some s2 ->
  navigateToMove second s1 = Some s2.
Proof.
  unfold navigateToMove. destruct (falsy (pgn s)) eqn:F.
  - intros H1 H2. injection H1 as <-. injection H2 as <-. now rewrite F.
  - destruct (Chess.loadPgn Chess.new (pgn s)) as [loaded|] eqn:L;
      [|discriminate].
    destruct (replay_loop _ 0 (Z.to_nat (first + 1)) _) as [g1|];
      [|discriminate].
    destruct (replay_loop _ 0 (Z.to_nat (second + 1)) _) as [g2|] eqn:R2;
      [|discriminate].
    intros H1 H2. injection H1 as <-. injection H2 as <-.
    simpl. rewrite F, L, R2. reflexivity.
Qed.

(** A legal drop.  The move is made on a copy created from the displayed
    position; the drop is accepted and the error is cleared.  When the PGN
    text of the copy is the stored one, only the board changes; when it is
    another one that loads, the board shows the game loaded from it, with
    its history as the move list and the index on its last move. *)
Theorem legal_drop_outcome s (sourceSquare targetSquare : jsstring)
  (gameCopy moved : Chess.t) :
  Chess.of_fen (Chess.fen (game s)) = Some gameCopy ->
  Chess.move gameCopy (Chess.FromTo sourceSquare targetSquare (js "q"))
  = Chess.Moved moved ->
  snd (onDrop sourceSquare targetSquare s) = true
  /\ (Chess.pgn moved = pgn s ->
      dispatch (Drop sourceSquare targetSquare) s
      = (s |> setGame moved |> setError None))
  /\ (forall loaded,
      Chess.pgn moved <> pgn s -> Chess.pgn moved <> js "" ->
      Chess.loadPgn Chess.new (Chess.pgn moved) = Some loaded ->
      dispatch (Drop sourceSquare targetSquare) s
      = (s |> setPgn (Chess.pgn moved) |> setError None
           |> setMoveHistory (Chess.history loaded)
           |> setCurrentMoveIndex
                (Z.of_nat (List.length (Chess.history loaded)) - 1)
           |> setGame loaded)).
Proof.
  intros Hc Hm. unfold dispatch. simpl. unfold onDrop, makeAMove.
  rewrite Hc, Hm. simpl. split; [reflexivity|]. split.
  - intros E. rewrite render_same_pgn by (simpl; exact E).
    rewrite E. now destruct s.
  - intros loaded Hd Hne Hl.
    rewrite render_new_pgn by (simpl; assumption). simpl. now rewrite Hl.
Qed.

(** A search for the games of a user never touches the game: the board, the
    PGN text, the move list and the index are as before.  With no username
    nothing happens and nothing is requested; a response that is not a
    success shows the fixed message and keeps the list of games and the
    selector as they were. *)
Theorem handleLichessSearch_outcome s (response : FetchOutcome) :
  (game (dispatch (LichessSearch response) s) = game s
   /\ pgn (dispatch (LichessSearch response) s) = pgn s
   /\ moveHistory (dispatch (LichessSearch response) s) = moveHistory s
   /\ currentMoveIndex (dispatch (LichessSearch response) s)
      = currentMoveIndex s)
  /\ (username s = js "" ->
      dispatch (LichessSearch response) s = s
      /\ requests (LichessSearch response) s = [])
  /\ (forall body,
      username s <> js "" -> response = FetchResponse false body ->
      dispatch (LichessSearch response) s
      = (s |> setError (Some (js "Lichess user not found or private."))
           |> setIsSearchingLichess false)).
Proof.
  unfold dispatch, requests. simpl. unfold handleLichessSearch.
  destruct (username s) as [|c r] eqn:U; simpl.
  - rewrite render_same_pgn by reflexivity. repeat split.
    intros body H. now elim H.
  - split; [|split].
    + destruct (fetchRecentLichessGames response);
        rewrite render_same_pgn by reflexivity; repeat split.
    + discriminate.
    + intros body _ ->. simpl. rewrite render_same_pgn by reflexivity.
      now destruct s.
Qed.


End SessionBehaviour.

(* ================================================================== *)
(** * The invariants and the outcomes on concrete sessions *)
(* ================================================================== *)

Lemma reachable_index_in_range_witness :
  index_in_range (run_actions replayed_first_move initial_state).
Proof.
  apply reachable_index_in_range.
  apply reachable_run_actions, reachable_initial.
Defined.

Lemma reachable_history_matches_pgn_witness :
  moveHistory at_first_move = Chess.history (Script.mkGame 0 3).
Proof.
  apply reachable_history_matches_pgn.
  - repeat apply reachable_run_actions. apply reachable_initial.
  - vm_compute. discriminate.
  - vm_compute. reflexivity.
Defined.

Lemma navigation_within_history_witness :
  (-1 <= 1)%Z
  /\ forall i, (i < Z.to_nat (1 + 1))%nat ->
               nth_error (Chess.history (Script.mkGame 0 3)) i <> None.
Proof.
  apply (@navigation_within_history _ _ at_first_move NextMove).
  - repeat apply reachable_run_actions. apply reachable_initial.
  - vm_compute. reflexivity.
  - vm_compute. reflexivity.
  - vm_compute. discriminate.
  - vm_compute. reflexivity.
Defined.

Lemma reachable_idle_witness : idle spoiled.
Proof.
  apply reachable_idle.
  repeat apply reachable_run_actions. apply reachable_initial.
Defined.

Lemma chatMessages_append_only_witness :
  exists added,
    chatMessages (dispatch (SendChat (Throw (Error "Failed to fetch"))) asking)
    = chatMessages asking ++ added
    /\ (List.length added <= 2)%nat.
Proof.
  apply chatMessages_append_only. discriminate.
Defined.

Lemma analysis_kept_witness :
  analysis (dispatch (PgnUpload (Some (js "1. e4 e5 2. Nf3"))) analysed)
  = analysis analysed.
Proof.
  apply analysis_kept; [discriminate|intros response; discriminate].
Defined.

Lemma handlePgnUpload_outcome_witness :
  dispatch (PgnUpload (Some (js "1. e4 e5"))) uploaded
  = (uploaded |> setPgn (js "1. e4 e5") |> setInputMode pgn_mode
       |> setMoveHistory [js "e4"; js "e5"] |> setCurrentMoveIndex 1
       |> setGame (Script.mkGame 0 2))
  /\ dispatch (PgnUpload (Some (js "1. e9"))) uploaded
     = (uploaded |> setPgn (js "1. e9") |> setInputMode pgn_mode
          |> setError (Some (js "Invalid PGN data."))).
Proof.
  split.
  - apply (proj1 (@handlePgnUpload_outcome _ _ uploaded (js "1. e4 e5")
                    ltac:(discriminate) ltac:(vm_compute; discriminate))
             (Script.mkGame 0 2)).
    vm_compute. reflexivity.
  - apply (proj2 (@handlePgnUpload_outcome _ _ uploaded (js "1. e9")
                    ltac:(discriminate) ltac:(vm_compute; discriminate))).
    vm_compute. reflexivity.
Defined.

Lemma unloadable_pgn_session_witness :
  (forall index, navigateToMove index spoiled = None)
  /\ dispatch PreviousMove spoiled = spoiled
  /\ dispatch NextMove spoiled = spoiled
  /\ (forall idx, dispatch (ClickMove idx) spoiled = spoiled)
  /\ requests (StartAnalysis (AiResponse None)) spoiled
     = [GenerateContent (analyze_contents (pgn spoiled))].
Proof.
  apply unloadable_pgn_session.
  - vm_compute. discriminate.
  - vm_compute. reflexivity.
Defined.

Lemma navigateToMove_last_wins_witness :
  navigateToMove 2 at_first_move
  = Some (uploaded |> setGame (Script.mkGame 0 3) |> setCurrentMoveIndex 2).
Proof.
  apply navigateToMove_last_wins with (s := uploaded) (first := 0%Z).
  - reflexivity.
  - reflexivity.
Defined.

Lemma legal_drop_outcome_witness :
  snd (onDrop (js "e7") (js "e5") at_first_move) = true
  /\ moveHistory (dispatch (Drop (js "e7") (js "e5")) at_first_move) = [js "e5"]
  /\ dispatch (Drop (js "e2") (js "e4")) (run_actions [e2e4; PreviousMove] initial_state)
     = (run_actions [e2e4; PreviousMove] initial_state
          |> setGame (Script.mkGame 0 1) |> setError None).
Proof.
  pose proof (@legal_drop_outcome _ _ at_first_move (js "e7") (js "e5")
                (Script.mkGame 1 0) (Script.mkGame 1 1) eq_refl eq_refl)
    as (Htrue & _ & Hload).
  pose proof (@legal_drop_outcome _ _
                (run_actions [e2e4; PreviousMove] initial_state)
                (js "e2") (js "e4")
                (Script.mkGame 0 0) (Script.mkGame 0 1) eq_refl eq_refl)
    as (_ & Hsame & _).
  split; [exact Htrue|]. split.
  - rewrite (Hload (Script.mkGame 1 1)).
    + reflexivity.
    + vm_compute. discriminate.
    + vm_compute. discriminate.
    + vm_compute. reflexivity.
  - apply Hsame. vm_compute. reflexivity.
Defined.

Lemma handleLichessSearch_outcome_witness :
  (dispatch (LichessSearch (FetchResponse false (js "Not found"))) analysed
   = analysed
   /\ requests (LichessSearch (FetchResponse false (js "Not found"))) analysed
      = [])
  /\ dispatch (LichessSearch (FetchResponse false (js "Not found"))) asking
     = (asking |> setError (Some (js "Lichess user not found or private."))
          |> setIsSearchingLichess false).
Proof.
  split.
  - apply (proj1 (proj2 (handleLichessSearch_outcome analysed
                           (FetchResponse false (js "Not found"))))).
    vm_compute. reflexivity.
  - apply (proj2 (proj2 (handleLichessSearch_outcome asking
                           (FetchResponse false (js "Not found"))))
             (js "Not found")).
    + vm_compute. discriminate.
    + reflexivity.
Defined.


Lemma getColor_getBg_agree_witness :
  getBg (Finite (QArith_base.Qmake 145 2))
  = js "bg-indigo-500/10 border-indigo-500/30".
Proof.
  apply (proj1 (proj2 (getColor_getBg_agree (Finite (QArith_base.Qmake 145 2))))).
  vm_compute. reflexivity.
Defined.

Lemma replayed_move_keeps_index_witness :
  let s := run_actions replayed_first_move initial_state in
  game s = Script.mkGame 0 1
  /\ moveHistory s = [js "e4"]
  /\ currentMoveIndex s = (-1)%Z.
Proof.
  apply replayed_move_keeps_index
    with (gameCopy := Script.mkGame 0 0) (loaded := Script.mkGame 0 1).
  - vm_compute. reflexivity.
  - vm_compute. reflexivity.
  - vm_compute. discriminate.
  - vm_compute. reflexivity.
  - vm_compute. reflexivity.
Defined.
